(** * Minichart query builder: selection handlers

    A shallow embedding of the query-builder mixin of the minicharts
    ([_getComparableValue], [handleDistinctEvent], [handleRangeEvent],
    [handleQueryBuilderEvent]) and the properties of the selection and
    of the refine value that it computes.

    The mixin is JavaScript over lodash 3 ([_.pluck] takes the path
    ['d.label'], [_.contains] is still there), d3 and the DOM.  The parts
    of those that the handlers use are embedded below next to them. *)

From stdpp Require Import base numbers list strings gmap sets.

Open Scope string_scope.
Open Scope Z_scope.
Open Scope list_scope.

(** ** Outcome of running JavaScript code *)

(** A statement either completes, or throws.  [TypeError] is the error of
    reading a property of [undefined].  [Unsupported] marks a coercion that
    the embedding does not follow (a string or an object compared or added
    as a primitive); the handlers do not come to one on a chart whose values
    are of the type of its field, see [handleQueryBuilderEvent_supported]. *)
Inductive Error := TypeError | Unsupported.

Inductive result (A : Type) :=
| Ok (a : A)
| Throw (e : Error).
Arguments Ok {A} a.
Arguments Throw {A} e.

#[global] Instance result_ret : MRet result := λ A a, Ok a.
#[global] Instance result_bind : MBind result :=
  λ A B f m, match m with Ok a => f a | Throw e => Throw e end.
#[global] Instance result_fmap : FMap result :=
  λ A B f m, match m with Ok a => Ok (f a) | Throw e => Throw e end.

(** ** Values *)

(** Object identity: two objects are [===] when they are the same object. *)
Definition Ref := nat.

(** The values of a field.  Numbers are taken at integer values and added
    exactly.  A Date is an object holding a time in milliseconds.  An
    ObjectID is an object holding 12 bytes: the creation time in seconds
    (4 bytes) and 8 further bytes, [rest]. *)
Inductive Value :=
| VNumber (n : Z)
| VString (s : string)
| VBoolean (b : bool)
| VDate (o : Ref) (ms : Z)
| VObjectID (o : Ref) (seconds : Z) (rest : Z).

(** [a === b] *)
Definition strict_equal (a b : Value) : bool :=
  match a, b with
  | VNumber x, VNumber y => bool_decide (x = y)
  | VString x, VString y => bool_decide (x = y)
  | VBoolean x, VBoolean y => bool_decide (x = y)
  | VDate o1 _, VDate o2 _ => bool_decide (o1 = o2)
  | VObjectID o1 _ _, VObjectID o2 _ _ => bool_decide (o1 = o2)
  | _, _ => false
  end.

(** The same domain value, whichever object holds it. *)
Definition same_value (a b : Value) : Prop :=
  match a, b with
  | VNumber x, VNumber y => x = y
  | VString x, VString y => x = y
  | VBoolean x, VBoolean y => x = y
  | VDate _ t1, VDate _ t2 => t1 = t2
  | VObjectID _ s1 r1, VObjectID _ s2 r2 => s1 = s2 ∧ r1 = r2
  | _, _ => False
  end.

(** What [_getComparableValue] returns: the value itself, or the Date that
    [getTimestamp()] has just made, which no one else holds. *)
Inductive Comparable :=
| CValue (v : Value)
| CTimestamp (ms : Z).

(** [ObjectID.prototype.getTimestamp] (bson): the creation time as a Date. *)
Definition getTimestamp (seconds : Z) : Comparable := CTimestamp (seconds * 1000).

(** ToNumber, as [+x] and the relational operators apply it: a number is
    itself, a Date is its time. *)
Definition toNumber (c : Comparable) : result Z :=
  match c with
  | CValue (VNumber n) => Ok n
  | CValue (VDate _ ms) => Ok ms
  | CTimestamp ms => Ok ms
  | CValue _ => Throw Unsupported
  end.

(** [a >= b], [a <= b], [a < b] *)
Definition js_ge (a b : Comparable) : result bool :=
  x ← toNumber a; y ← toNumber b; Ok (bool_decide (y ≤ x)%Z).
Definition js_le (a b : Comparable) : result bool :=
  x ← toNumber a; y ← toNumber b; Ok (bool_decide (x ≤ y)%Z).
Definition js_lt (a b : Comparable) : result bool :=
  x ← toNumber a; y ← toNumber b; Ok (bool_decide (x < y)%Z).

(** [v + n] for a number [n]: addition on a number; on a Date or an
    ObjectID it would be a string concatenation, which is not followed. *)
Definition js_add (v : Value) (n : Z) : result Value :=
  match v with
  | VNumber x => Ok (VNumber (x + n))
  | _ => Throw Unsupported
  end.

Definition js_add_comparable (c : Comparable) (n : Z) : result Comparable :=
  match c with
  | CValue v => CValue <$> js_add v n
  | CTimestamp _ => Throw Unsupported
  end.

(** ** Arrays *)

(** A JavaScript array: a slot is a value or a hole, which reads as
    [undefined]. *)
Abbreviation Array A := (list (option A)).

(** [a[i]] *)
Definition array_get {A} (a : Array A) (i : nat) : option A := mjoin (a !! i).

(** [a[i] = x]: past the end the array grows, and the slots in between
    are holes. *)
Fixpoint array_set {A} (i : nat) (x : A) (a : Array A) : Array A :=
  match i, a with
  | O, [] => [Some x]
  | O, _ :: a' => Some x :: a'
  | S i', [] => None :: array_set i' x []
  | S i', y :: a' => y :: array_set i' x a'
  end.

(** [a.push(x)] *)
Definition array_push {A} (a : Array A) (x : A) : Array A := a ++ [Some x].

(** [a.map(f)] keeps the holes. *)
Definition array_map {A B} (f : A → B) (a : Array A) : Array B :=
  fmap (M:=list) (fmap (M:=option) f) a.

(** An array without holes. *)
Definition dense {A} (l : list A) : Array A := Some <$> l.

(** [o.p] where [o] may be [undefined]. *)
Definition deref {A} (o : option A) : result A :=
  match o with
  | Some a => Ok a
  | None => Throw TypeError
  end.

(** ** The event data *)

(** The data point of a chart element: [dx] is the width of its bin, 0 when
    it stands for a single value. *)
Record Datum := { label : string; value : Value; dx : Z }.

(** The browser event. *)
Record Evt := { shiftKey : bool; propagationStopped : bool; defaultPrevented : bool }.

Definition DomRef := nat.

Module Data.
(** The object a minichart triggers: the data point, the index of the
    clicked element, the element, all clickable elements of the chart,
    the event, its type and where it comes from. *)
Record t := {
  d : Datum;
  i : nat;
  self : DomRef;
  all : list DomRef;
  evt : Evt;
  type : string;
  source : string
}.
End Data.

Definition MODIFIERKEY : Evt → bool := shiftKey.

(** ** The DOM *)

(** An element of a chart: its class list and the datum that d3 has bound
    to it ([d3.select(el).data()[0]]). *)
Record Element := { classList : gset string; __data__ : Datum }.

Abbreviation Dom := (DomRef → Element).

Definition classList_add (c : string) (e : Element) : Element :=
  {| classList := classList e ∪ {[c]}; __data__ := __data__ e |}.
Definition classList_remove (c : string) (e : Element) : Element :=
  {| classList := classList e ∖ {[c]}; __data__ := __data__ e |}.

(** Run [f] on the element [el]. *)
Definition on_element (el : DomRef) (f : Element → Element) (dom : Dom) : Dom :=
  λ r, if decide (r = el) then f (dom r) else dom r.

(** ** The query *)

(** The refine value (mongodb-language-model): a single value, a list of
    values under [$in], or a range with an inclusive lower bound; in the
    specification ExactValue, ValueSet and BoundedRange. *)
Inductive Predicate :=
| LeafValue (content : Value)
| ListOperator_in (values : Array Value)
| Range (lower upper : Value) (upperInclusive : bool).

(** ** The view and the page *)

(** [this]: the selection, the refine value ([None] when unset), the type of
    the field ([this.model.getType()]); and the elements of the page. *)
Record World := {
  selectedValues : Array Data.t;
  refineValue : option Predicate;
  model_getType : string;
  dom : Dom
}.

Definition set_evt (data : Data.t) (e : Evt) : Data.t :=
  {| Data.d := Data.d data; Data.i := Data.i data; Data.self := Data.self data;
     Data.all := Data.all data; Data.evt := e; Data.type := Data.type data;
     Data.source := Data.source data |}.

(** [evt.stopPropagation()], [evt.preventDefault()] *)
Definition stopPropagation (e : Evt) : Evt :=
  {| shiftKey := shiftKey e; propagationStopped := true;
     defaultPrevented := defaultPrevented e |}.
Definition preventDefault (e : Evt) : Evt :=
  {| shiftKey := shiftKey e; propagationStopped := propagationStopped e;
     defaultPrevented := true |}.

(** ** lodash *)

(** [_.each(collection, iteratee)]: the iteratee runs on every slot in
    turn, holes too, and acts on the state [S]. *)
Fixpoint _each {A S} (collection : list A) (iteratee : A → S → result S) (s : S)
  : result S :=
  match collection with
  | [] => Ok s
  | x :: rest => s' ← iteratee x s; _each rest iteratee s'
  end.

(** [_.pluck(collection, path)]: the property of every slot, [undefined]
    for a hole. *)
Definition _pluck {A B} (collection : Array A) (path : A → B) : Array B :=
  array_map path collection.

(** [_.contains(collection, target)] *)
Definition _contains `{EqDecision B} (collection : Array B) (target : B) : bool :=
  bool_decide (Some target ∈ collection).

(** [_.remove(array, predicate)]: asks the predicate about every slot and
    takes out those it accepts. *)
Fixpoint _remove {A} (array : Array A) (predicate : option A → result bool)
  : result (Array A) :=
  match array with
  | [] => Ok []
  | x :: rest =>
      b ← predicate x;
      rest' ← _remove rest predicate;
      Ok (if b : bool then rest' else x :: rest')
  end.

(** The scan of [_.min] and [_.max]: [current = +iteratee(value)] takes the
    place of [computed] when [comparator(current, computed)]; [computed]
    starts at an infinity ([None]), which every number beats, and [result]
    with it.  A later slot with an equal number does not replace an
    earlier one. *)
Fixpoint arrayExtremum {A} (array : Array A) (iteratee : option A → result Comparable)
    (comparator : Z → Z → bool) (computed : option Z) (res : option A)
  : result (option A) :=
  match array with
  | [] => Ok res
  | x :: rest =>
      c ← iteratee x;
      current ← toNumber c;
      if match computed with
         | None => true
         | Some m => comparator current m
         end
      then arrayExtremum rest iteratee comparator (Some current) x
      else arrayExtremum rest iteratee comparator computed res
  end.

(** [_.min(collection, iteratee)], [_.max(collection, iteratee)]: [None]
    is the infinity that comes back for an empty collection. *)
Definition _min {A} (collection : Array A) (iteratee : option A → result Comparable)
  : result (option A) :=
  arrayExtremum collection iteratee Z.ltb None None.
Definition _max {A} (collection : Array A) (iteratee : option A → result Comparable)
  : result (option A) :=
  arrayExtremum collection iteratee Z.gtb None None.

(** ** The mixin *)

(** Extract a value that can be compared. *)
Definition _getComparableValue (d : Datum) : Comparable :=
  match value d with
  | VObjectID _ seconds _ => getTimestamp seconds
  | v => CValue v
  end.

(** The selection of [handleDistinctEvent] after the click (lines 133-143):
    a click on the only selected element clears, any other click selects
    the element alone; a shift-click takes the label out when it is there
    and adds the element when it is not. *)
Definition distinctSelect (selectedValues0 : Array Data.t) (data : Data.t)
  : result (Array Data.t) :=
  if negb (MODIFIERKEY (Data.evt data)) then
    same ←
      (if bool_decide (length selectedValues0 = 1%nat) then
         s0 ← deref (array_get selectedValues0 0);
         Ok (bool_decide (Data.self s0 = Data.self data))
       else Ok false);
    Ok (if same : bool then [] else [Some data])
  else if _contains (_pluck selectedValues0 (label ∘ Data.d)) (label (Data.d data)) then
    _remove selectedValues0
      (λ d, d ← deref d; Ok (bool_decide (label (Data.d d) = label (Data.d data))))
  else Ok (array_push selectedValues0 data).

(** Handler for events that result in distinct selection: a click selects
    one element, a shift-click adds to the selection or takes out of it. *)
Definition handleDistinctEvent (w : World) (data : Data.t) : result World :=
  (* update selectedValues *)
  selectedValues1 ← distinctSelect (selectedValues w) data;
  (* visual updates *)
  dom1 ←
    _each (Data.all data)
      (λ el dom,
         let dom := on_element el (classList_remove "selected") dom in
         if bool_decide (length selectedValues1 = 0%nat) then
           Ok (on_element el (classList_remove "unselected") dom)
         else
           Ok (on_element el (classList_add "unselected") dom))
      (dom w);
  dom2 ←
    _each selectedValues1
      (λ selected dom,
         selected ← deref selected;
         let dom := on_element (Data.self selected) (classList_add "selected") dom in
         Ok (on_element (Data.self selected) (classList_remove "unselected") dom))
      dom1;
  (* build new refineValue *)
  refineValue1 ←
    (if bool_decide (length selectedValues1 = 0%nat) then
       (* no value *)
       Ok None
     else if bool_decide (length selectedValues1 = 1%nat) then
       (* single value *)
       s0 ← deref (array_get selectedValues1 0);
       Ok (Some (LeafValue (value (Data.d s0))))
     else
       (* multiple values *)
       Ok (Some (ListOperator_in (array_map (λ el, value (Data.d el)) selectedValues1))));
  Ok {| selectedValues := selectedValues1; refineValue := refineValue1;
        model_getType := model_getType w; dom := dom2 |}.

(** The selection of [handleRangeEvent] after the click (lines 186-192): a
    shift-click sets the second slot, a click on the label of the first slot
    clears, any other click makes the element the only slot. *)
Definition rangeSelect (selectedValues0 : Array Data.t) (data : Data.t) : Array Data.t :=
  if MODIFIERKEY (Data.evt data) then
    array_set 1 data selectedValues0
  else
    match array_get selectedValues0 0 with
    | Some s0 =>
        if bool_decide (label (Data.d s0) = label (Data.d data)) then []
        else [Some data]
    | None => [Some data]
    end.

(** The two ends of a selection (lines 207-213): the selected elements
    with the least and with the greatest comparable value. *)
Definition rangeEnds (selectedValues1 : Array Data.t) : result (Data.t * Data.t) :=
  let getComparableValue := _getComparableValue in
  let key := λ el : option Data.t,
    el ← deref el; Ok (getComparableValue (Data.d el)) in
  first ← _min selectedValues1 key;
  last ← _max selectedValues1 key;
  first ← deref first;
  last ← deref last;
  Ok (first, last).

(** [lower] and [upper] as the elements are compared with them (lines
    216-220). *)
Definition comparableBounds (type : string) (first last : Data.t)
  : result (Comparable * Comparable) :=
  let lower := _getComparableValue (Data.d first) in
  let upper := _getComparableValue (Data.d last) in
  upper ←
    (if bool_decide (type = "Number") then
       js_add_comparable upper (dx (Data.d last))
     else Ok upper);
  Ok (lower, upper).

(** [lower] and [upper] as the query takes them, from [.value] (lines
    239-243). *)
Definition valueBounds (type : string) (first last : Data.t) : result (Value * Value) :=
  let lower := value (Data.d first) in
  let upper := value (Data.d last) in
  upper ←
    (if bool_decide (type = "Number") then
       js_add upper (dx (Data.d last))
     else Ok upper);
  Ok (lower, upper).

(** Handler for events that result in range selection: a click takes one
    end of the range, a shift-click the other. *)
Definition handleRangeEvent (w : World) (data : Data.t) : result World :=
  let selectedValues1 := rangeSelect (selectedValues w) data in
  let firstSelected := array_get selectedValues1 0 in
  (* remove `.selected` class from all elements *)
  dom1 ←
    _each (Data.all data)
      (λ el dom,
         let dom := on_element el (classList_remove "selected") dom in
         if firstSelected is None then
           Ok (on_element el (classList_remove "unselected") dom)
         else
           Ok (on_element el (classList_add "unselected") dom))
      (dom w);
  match firstSelected with
  | None =>
      (* no value *)
      Ok {| selectedValues := selectedValues1; refineValue := None;
            model_getType := model_getType w; dom := dom1 |}
  | Some _ =>
      '(first, last) ← rangeEnds selectedValues1;
      (* use getComparableValue to determine what elements should be selected *)
      '(lower, upper) ← comparableBounds (model_getType w) first last;
      let upperInclusive := bool_decide (dx (Data.d last) = 0) in
      dom2 ←
        _each (Data.all data)
          (λ el dom,
             let elData := _getComparableValue (__data__ (dom el)) in
             ge ← js_ge elData lower;
             inside ←
               (if ge : bool then
                  if upperInclusive then js_le elData upper else js_lt elData upper
                else Ok false);
             if inside : bool then
               let dom := on_element el (classList_add "selected") dom in
               Ok (on_element el (classList_remove "unselected") dom)
             else Ok dom)
          dom1;
      (* now use .value to build query *)
      '(lower, upper) ← valueBounds (model_getType w) first last;
      Ok {| selectedValues := selectedValues1;
            refineValue :=
              Some (if strict_equal lower upper then LeafValue lower
                    else Range lower upper upperInclusive);
            model_getType := model_getType w; dom := dom2 |}
  end.

(** Handles query builder events, routing them to the handler of the type
    of the field.  The event comes back with it. *)
Definition handleQueryBuilderEvent (w : World) (data : Data.t) : result (World * Evt) :=
  let evt := stopPropagation (Data.evt data) in
  let evt := preventDefault evt in
  let data := set_evt data evt in
  let type := model_getType w in
  w' ←
    (if bool_decide (type = "Boolean") || bool_decide (type = "String") then
       handleDistinctEvent w data
     else if bool_decide (type = "Number") then
       if bool_decide (Data.source data = "unique") then
         handleDistinctEvent w data
       else
         handleRangeEvent w data
     else if bool_decide (type = "ObjectID") || bool_decide (type = "Date") then
       handleRangeEvent w data
     else
       Ok w);
  Ok (w', evt).

(** A run of interactions with one handler, each on the world the one
    before has left. *)
Definition interactions (handler : World → Data.t → result World)
    (w : World) (events : list Data.t) : result World :=
  _each events (λ data w, handler w data) w.

(** The event as the handlers get it from [handleQueryBuilderEvent]:
    propagation stopped, default prevented. *)
Definition handled (data : Data.t) : Data.t :=
  set_evt data (preventDefault (stopPropagation (Data.evt data))).

(** Routing to [handler]. *)
Definition routed (handler : World → Data.t → result World) (w : World) (data : Data.t)
  : result (World * Evt) :=
  w' ← handler w (handled data); Ok (w', Data.evt (handled data)).

(** The event of a click on the element of [data], with or without shift. *)
Definition withShift (shift : bool) (data : Data.t) : Data.t :=
  set_evt data {| shiftKey := shift;
                  propagationStopped := propagationStopped (Data.evt data);
                  defaultPrevented := defaultPrevented (Data.evt data) |}.

(** ** Words for the properties of the range handler *)

(** The values the range handler is made for: numbers in a Number field,
    dates and ObjectIDs in the other fields.  On these no coercion of the
    handler is [Unsupported]. *)
Definition rangeable (type : string) (v : Value) : bool :=
  match v with
  | VNumber _ => true
  | VDate _ _ | VObjectID _ _ _ => negb (bool_decide (type = "Number"))
  | _ => false
  end.

(** The number an element is compared at: [+getComparableValue(d)]; for a
    rangeable value [comparable d = Ok (comparableNumber d)]. *)
Definition comparable (d : Datum) : result Z := toNumber (_getComparableValue d).

Definition comparableNumber (d : Datum) : Z :=
  match comparable d with
  | Ok n => n
  | Throw _ => 0
  end.

Abbreviation key := (λ x : Data.t, comparableNumber (Data.d x)).

(** [first] is least, [last] is greatest in [l] by comparable value. *)
Definition least (first : Data.t) (l : list Data.t) : Prop :=
  first ∈ l ∧ ∀ x, x ∈ l → comparableNumber (Data.d first) ≤ comparableNumber (Data.d x).
Definition greatest (last : Data.t) (l : list Data.t) : Prop :=
  last ∈ l ∧ ∀ x, x ∈ l → comparableNumber (Data.d x) ≤ comparableNumber (Data.d last).

(** The scan of [arrayExtremum] over numbers that are there: [r] is the
    result so far. *)
Definition scan {A} (comparator : Z → Z → bool) (k : A → Z) (l : list A) (r : A) : A :=
  foldl (λ r x, if comparator (k x) (k r) then x else r) r l.

(** [v] lies in the range from [lower] to [upper]. *)
Definition inRange (lower upper : Z) (upperInclusive : bool) (v : Z) : bool :=
  bool_decide (lower ≤ v) &&
  (if upperInclusive then bool_decide (v ≤ upper) else bool_decide (v < upper)).

(** The number of the upper end: in a Number field the bin of the last
    element is part of the range. *)
Definition upperNumber (type : string) (last : Datum) : Z :=
  if bool_decide (type = "Number") then comparableNumber last + dx last
  else comparableNumber last.

(** An element of the chart is shown selected, dimmed, or without styling. *)
Definition shownSelected (e : Element) : Prop :=
  ("selected" ∈ classList e) ∧ ("unselected" ∉ classList e).
Definition shownDimmed (e : Element) : Prop :=
  ("selected" ∉ classList e) ∧ ("unselected" ∈ classList e).
Definition shownPlain (e : Element) : Prop :=
  ("selected" ∉ classList e) ∧ ("unselected" ∉ classList e).


(** The bounds of a refine value; a single value is both of its bounds. *)
Definition bounds (p : Predicate) : option (Value * Value) :=
  match p with
  | LeafValue v => Some (v, v)
  | Range lower upper _ => Some (lower, upper)
  | ListOperator_in _ => None
  end.

(** The bounds after a click on [a] and a shift-click on [b]. *)
Definition boundsAfter (w : World) (a b : Data.t) : result (option (Value * Value)) :=
  (λ w', refineValue w' ≫= bounds) <$>
  interactions handleRangeEvent w [withShift false a; withShift true b].

(** The bounds do not depend on which of [a] and [b] is clicked first. *)
Definition clickOrderInvariant (w : World) (a b : Data.t) : Prop :=
  boundsAfter w a b = boundsAfter w b a.

(** ** Words for the properties of the distinct handler *)

Abbreviation labels entries := ((label ∘ Data.d) <$> entries).

(** The selection after a click, in the words of the specification: on a
    selection without holes [distinctSelect] comes to this. *)
Definition toggle (entries : list Data.t) (data : Data.t) : list Data.t :=
  if MODIFIERKEY (Data.evt data) then
    if bool_decide (label (Data.d data) ∈ labels entries) then
      filter (λ x, label (Data.d x) ≠ label (Data.d data)) entries
    else entries ++ [data]
  else
    match entries with
    | [s0] => if bool_decide (Data.self s0 = Data.self data) then [] else [data]
    | _ => [data]
    end.

(** The refine value of a selection. *)
Definition refineOf (entries : list Data.t) : option Predicate :=
  match entries with
  | [] => None
  | [s0] => Some (LeafValue (value (Data.d s0)))
  | _ => Some (ListOperator_in (dense ((value ∘ Data.d) <$> entries)))
  end.

(** ** Example charts *)

Definition noDatum : Datum := {| label := ""; value := VString ""; dx := 0 |}.

(** A page with one chart: element [i] shows the data point [i] of [bars]
    and has no class yet. *)
Definition chartPage (bars : list Datum) : Dom :=
  λ r, {| classList := ∅; __data__ := nth r bars noDatum |}.

(** A click (with shift, when [shift]) on element [i] of the chart. *)
Definition clickOn (bars : list Datum) (source : string) (shift : bool) (i : nat) : Data.t :=
  {| Data.d := nth i bars noDatum; Data.i := i; Data.self := i;
     Data.all := seq 0 (length bars);
     Data.evt := {| shiftKey := shift; propagationStopped := false;
                    defaultPrevented := false |};
     Data.type := "click"; Data.source := source |}.

(** A view of a field of the type, nothing selected. *)
Definition freshView (type : string) (page : Dom) : World :=
  {| selectedValues := []; refineValue := None; model_getType := type; dom := page |}.

Definition number (l : string) (n width : Z) : Datum :=
  {| label := l; value := VNumber n; dx := width |}.
Definition date (l : string) (o : Ref) (ms : Z) : Datum :=
  {| label := l; value := VDate o ms; dx := 0 |}.
Definition objectID (l : string) (o : Ref) (seconds rest : Z) : Datum :=
  {| label := l; value := VObjectID o seconds rest; dx := 0 |}.

(** A histogram with bins of width 10, and a chart of single numbers. *)
Definition binned : list Datum :=
  [number "20" 20 10; number "30" 30 10; number "40" 40 10; number "50" 50 10].
Definition unbinned : list Datum := [number "5" 5 0; number "7" 7 0; number "9" 9 0].


(** Two documents of the same time, and a later one. *)
Definition dates : list Datum :=
  [date "a" 1%nat 1000; date "b" 2%nat 1000; date "c" 3%nat 2000].

(** Two documents made in the same second, and a later one. *)
Definition ids : list Datum :=
  [objectID "a" 1%nat 1500000000 1; objectID "b" 2%nat 1500000000 2;
   objectID "c" 3%nat 1500000060 3].

(** The two values of a String field. *)
Definition letters : list Datum :=
  [{| label := "a"; value := VString "a"; dx := 0 |};
   {| label := "b"; value := VString "b"; dx := 0 |}].

(** ** Words for the coercions *)

(** The code has not come to a coercion that the embedding does not
    follow. *)
Definition supported {A} (r : result A) : Prop := r ≠ Throw Unsupported.

(** A value of a field of the type. *)
Definition typed (type : string) (v : Value) : Prop :=
  match v with
  | VNumber _ => type = "Number"
  | VString _ => type = "String"
  | VBoolean _ => type = "Boolean"
  | VDate _ _ => type = "Date"
  | VObjectID _ _ _ => type = "ObjectID"
  end.

(** Membership in a class list after adding and removing classes. *)
Ltac classes := set_unfold; intuition congruence.


(** ** Words for the further properties of the handlers *)

(** The elements of the entries of a selection. *)
Abbreviation selfs entries := (Data.self <$> entries).

(** [e'] is [e] but for the classes selected and unselected: the same
    datum, the same other classes. *)
Definition sameButSelection (e e' : Element) : Prop :=
  __data__ e' = __data__ e ∧
  ∀ c, c ≠ "selected" → c ≠ "unselected" → (c ∈ classList e' ↔ c ∈ classList e).

(** The selections of range mode: nothing, one end, two ends, or a second
    end behind an empty first slot. *)
Definition rangeShape (sv : Array Data.t) : Prop :=
  sv = [] ∨ (∃ a, sv = [Some a]) ∨ (∃ a b, sv = [Some a; Some b]) ∨
  (∃ b, sv = [None; Some b]).


(** The number a value is compared at. *)
Definition valueNumber (v : Value) : Z :=
  comparableNumber {| label := ""; value := v; dx := 0 |}.

(** A run of interactions through the entry point. *)
Definition entryInteractions (w : World) (events : list Data.t) : result World :=
  _each events (λ data w, fst <$> handleQueryBuilderEvent w data) w.

(** The refine value that [handleRangeEvent] builds for a selection (lines
    203-213 and 239-248). *)
Definition refineOfRange (type : string) (sel : Array Data.t) : result (option Predicate) :=
  match array_get sel 0 with
  | None => Ok None
  | Some _ =>
      '(first, last) ← rangeEnds sel;
      '(lower, upper) ← valueBounds type first last;
      Ok (Some (if strict_equal lower upper then LeafValue lower
                else Range lower upper (bool_decide (dx (Data.d last) = 0))))
  end.

(** A histogram whose bars carry classes of the page. *)
Definition styledPage : Dom :=
  λ r, {| classList := {["bar"; "selected"]}; __data__ := nth r binned noDatum |}.

(** * The actions of a document

    The component [DocumentActions] and its button [UpdatableIconButton]
    (React).  An element that [render] returns is the type of a component
    or a tag, its props and its children; a callback is known by its
    name. *)

Definition Func := nat.

Inductive PropValue :=
| PString (s : string)
| PFunc (f : Func).

#[warnings="-register-all"]
Inductive ReactElement :=
| createElement (type : string) (props : list (string * PropValue))
    (children : list ReactElement).

(** [element.props[name]] *)
Definition prop (name : string) (element : ReactElement) : option PropValue :=
  match element with
  | createElement _ props _ => snd ∘ snd <$> list_find (λ p, fst p = name) props
  end.

Definition children (element : ReactElement) : list ReactElement :=
  match element with
  | createElement _ _ children => children
  end.

Module UpdatableIconButton.
(** By default should always need to re-render itself. *)
Definition shouldComponentUpdate : bool := true.
End UpdatableIconButton.

Module DocumentActions.

(** The props, of the types that [propTypes] requires. *)
Module Props.
Record t := {
  edit : Func;
  remove : Func;
  clone : Func;
  allExpanded : bool;
  expandAll : Func
}.
End Props.

Module State.
Record t := { allExpanded : bool }.
End State.

(** [this]: the props and the state of the component. *)
Record t := { props : Props.t; state : State.t }.

(** Instantiate the actions. *)
Definition constructor (props : Props.t) : t :=
  {| props := props;
     state := {| State.allExpanded := Props.allExpanded props |} |}.

(** Set the state when new props are received: the state that is handed to
    [setState], [None] when [setState] is not called. *)
Definition componentWillReceiveProps (this : t) (nextProps : Props.t) : option State.t :=
  if negb (bool_decide (Props.allExpanded nextProps = State.allExpanded (state this))) then
    Some {| State.allExpanded := Props.allExpanded nextProps |}
  else None.

(** Render the expand all button. *)
Definition renderExpandAll (this : t) : ReactElement :=
  let title :=
    if State.allExpanded (state this) then "Collapse All" else "Expand All" in
  let iconClass :=
    if State.allExpanded (state this) then "fa-caret-down" else "fa-caret-right" in
  createElement "UpdatableIconButton"
    [("title", PString title);
     ("clickHandler", PFunc (Props.expandAll (props this)));
     ("className", PString "document-actions-button btn btn-default btn-xs");
     ("iconClassName", PString ("document-actions-button-icon fa " +:+ iconClass));
     ("dataTestId", PString "expand-all-button")]
    [].

(** Render the actions. *)
Definition render (this : t) : ReactElement :=
  createElement "div" [("className", PString "document-actions")]
    [renderExpandAll this;
     createElement "IconButton"
       [("title", PString "Edit Document");
        ("className", PString "document-actions-button btn btn-default btn-xs");
        ("iconClassName", PString "document-actions-button-icon fa fa-pencil");
        ("dataTestId", PString "edit-document-button");
        ("clickHandler", PFunc (Props.edit (props this)))]
       [];
     createElement "IconButton"
       [("title", PString "Delete Document");
        ("className", PString "document-actions-button btn btn-default btn-xs");
        ("iconClassName", PString "document-actions-button-icon fa fa-trash-o");
        ("dataTestId", PString "delete-document-button");
        ("clickHandler", PFunc (Props.remove (props this)))]
       [];
     createElement "IconButton"
       [("title", PString "Clone Document");
        ("className", PString "document-actions-button btn btn-default btn-xs");
        ("iconClassName", PString "document-actions-button-icon fa fa-clone");
        ("dataTestId", PString "clone-document-button");
        ("clickHandler", PFunc (Props.clone (props this)))]
       []].

(** An update with new props, as React runs it: [componentWillReceiveProps]
    sees the new props while [this.props] are the old ones, the state it has
    set is applied, and the new props become [this.props]. *)
Definition receiveProps (this : t) (nextProps : Props.t) : t :=
  {| props := nextProps;
     state := default (state this) (componentWillReceiveProps this nextProps) |}.

(** The component after it was made with [props0] and has received the
    props [updates] in turn. *)
Definition lifecycle (props0 : Props.t) (updates : list Props.t) : t :=
  foldl receiveProps (constructor props0) updates.

End DocumentActions.

(** * Properties *)

(** ** The lodash functions *)

Lemma bind_Ok {A B} (m : result A) (f : A → result B) (b : B) :
  m ≫= f = Ok b ↔ ∃ a, m = Ok a ∧ f a = Ok b.
Proof.
  destruct m as [a|e]; simpl; split.
  - intros H. exists a. auto.
  - intros (a' & [= <-] & H). exact H.
  - discriminate.
  - intros (a' & [=] & _).
Qed.

Section each.
Context {A S : Type} (iteratee : A → S → result S).

(** An invariant of the iteratee on the slots of the collection holds
    when the loop is over, and the loop does get there. *)
Lemma _each_invariant (I : S → Prop) (l : list A) (s : S) :
  (∀ x s, x ∈ l → I s → ∃ s', iteratee x s = Ok s' ∧ I s') →
  I s →
  ∃ s', _each l iteratee s = Ok s' ∧ I s'.
Proof.
  revert s. induction l as [|x l IH]; intros s Hstep Hs; simpl.
  - eauto.
  - destruct (Hstep x s) as (s1 & -> & Hs1); [left | done |]. simpl.
    apply IH; [|done]. intros y t Hy. apply Hstep. by right.
Qed.
End each.

Section each_element.
Context (f : DomRef → Dom → result Dom).
(** [K] holds of every element all along, [V] of an element once the
    iteratee has been at it. *)
Context (K V : DomRef → Element → Prop).

Lemma _each_elements (all : list DomRef) (dom0 : Dom) :
  (∀ el dom, el ∈ all → (∀ r, K r (dom r)) →
     ∃ dom', f el dom = Ok dom' ∧ (∀ r, r ≠ el → dom' r = dom r) ∧
             K el (dom' el) ∧ V el (dom' el)) →
  (∀ r, K r (dom0 r)) →
  ∃ dom', _each all f dom0 = Ok dom' ∧
          (∀ r, K r (dom' r)) ∧
          (∀ r, r ∈ all → V r (dom' r)) ∧
          (∀ r, r ∉ all → dom' r = dom0 r).
Proof.
  intros Hstep HK.
  destruct (_each_invariant f
    (λ dom, ∀ r, K r (dom r)) all dom0) as (dom' & Hrun & HK'); [|done|].
  { intros el dom Hel Hdom.
    destruct (Hstep el dom Hel Hdom) as (dom1 & -> & Hne & HK1 & _).
    exists dom1. split; [done|]. intros r.
    destruct (decide (r = el)) as [->|Hr]; [done|]. rewrite Hne; auto. }
  exists dom'. split; [done|]. split; [done|].
  clear HK'. revert dom0 HK Hrun.
  induction all as [|el all IH]; intros dom0 HK Hrun; simpl in Hrun.
  - injection Hrun as <-. split; [intros r Hr; by apply not_elem_of_nil in Hr | done].
  - destruct (Hstep el dom0) as (dom1 & Hf & Hne & HK1 & HV1); [left | done |].
    rewrite Hf in Hrun. simpl in Hrun.
    assert (HKdom1 : ∀ r, K r (dom1 r)).
    { intros r. destruct (decide (r = el)) as [->|Hr]; [done|]. rewrite Hne; auto. }
    destruct (IH (λ el' dom Hel', Hstep el' dom (list_elem_of_further _ _ _ Hel'))
                dom1 HKdom1 Hrun) as [Hin Hout].
    split.
    + intros r Hr. destruct (decide (r ∈ all)) as [Hall|Hall]; [by apply Hin|].
      apply elem_of_cons in Hr as [->|Hr]; [|done].
      rewrite (Hout el Hall). done.
    + intros r Hr. apply not_elem_of_cons in Hr as [Hr1 Hr2].
      rewrite (Hout r Hr2). by apply Hne.
Qed.
End each_element.

Section extremum.
Context {A : Type} (iteratee : option A → result Comparable) (k : A → Z).

Lemma scan_cons comparator (x : A) (l : list A) (r : A) :
  scan comparator k (x :: l) r =
  scan comparator k l (if comparator (k x) (k r) then x else r).
Proof. done. Qed.

Lemma scan_elem comparator (l : list A) (r : A) :
  scan comparator k l r ∈ r :: l.
Proof.
  revert r. induction l as [|x l IH]; intros r.
  - left.
  - rewrite scan_cons.
    specialize (IH (if comparator (k x) (k r) then x else r)).
    apply elem_of_cons in IH as [->|IH].
    + destruct (comparator (k x) (k r)); [right; left | left].
    + right. by right.
Qed.

Lemma scan_least (l : list A) (r x : A) :
  x ∈ r :: l → k (scan Z.ltb k l r) ≤ k x.
Proof.
  revert r x. induction l as [|y l IH]; intros r x Hx.
  - apply list_elem_of_singleton in Hx as ->. simpl. lia.
  - rewrite scan_cons.
    assert (Hr : k (scan Z.ltb k l (if k y <? k r then y else r))
                 ≤ k (if k y <? k r then y else r)) by (apply IH; left).
    apply elem_of_cons in Hx as [->|Hx]; [|apply elem_of_cons in Hx as [->|Hx]].
    + destruct (Z.ltb_spec (k y) (k r)); lia.
    + destruct (Z.ltb_spec (k y) (k r)); lia.
    + apply IH. by right.
Qed.

Lemma scan_greatest (l : list A) (r x : A) :
  x ∈ r :: l → k x ≤ k (scan Z.gtb k l r).
Proof.
  revert r x. induction l as [|y l IH]; intros r x Hx.
  - apply list_elem_of_singleton in Hx as ->. simpl. lia.
  - rewrite scan_cons.
    assert (Hr : k (if k y >? k r then y else r)
                 ≤ k (scan Z.gtb k l (if k y >? k r then y else r))) by (apply IH; left).
    apply elem_of_cons in Hx as [->|Hx]; [|apply elem_of_cons in Hx as [->|Hx]].
    + destruct (Z.gtb_spec (k y) (k r)); lia.
    + destruct (Z.gtb_spec (k y) (k r)); lia.
    + apply IH. by right.
Qed.

(** Among equal numbers the first one stays. *)
Lemma scan_ties comparator (l : list A) (r : A) :
  (∀ x, x ∈ l → comparator (k x) (k r) = false) →
  scan comparator k l r = r.
Proof.
  induction l as [|y l IH]; intros Hl; [done|].
  rewrite scan_cons, (Hl y) by left. apply IH. intros x Hx. apply Hl. by right.
Qed.

Lemma arrayExtremum_dense comparator (l : list A) (r : A) :
  (∀ x, x ∈ l → iteratee (Some x) ≫= toNumber = Ok (k x)) →
  arrayExtremum (dense l) iteratee comparator (Some (k r)) (Some r) =
  Ok (Some (scan comparator k l r)).
Proof.
  revert r. induction l as [|x l IH]; intros r Hl; [done|].
  rewrite scan_cons. simpl.
  pose proof (Hl x (list_elem_of_here _ _)) as Hx.
  apply bind_Ok in Hx as (c & -> & Hc). simpl. rewrite Hc. simpl.
  assert (Hl' : ∀ y, y ∈ l → iteratee (Some y) ≫= toNumber = Ok (k y)).
  { intros y Hy. apply Hl. by right. }
  destruct (comparator (k x) (k r)); by apply IH.
Qed.

Lemma arrayExtremum_first comparator (e : A) (es : list A) :
  (∀ x, x ∈ e :: es → iteratee (Some x) ≫= toNumber = Ok (k x)) →
  arrayExtremum (dense (e :: es)) iteratee comparator None None =
  Ok (Some (scan comparator k es e)).
Proof.
  intros Hl. simpl.
  pose proof (Hl e (list_elem_of_here _ _)) as He.
  apply bind_Ok in He as (c & -> & Hc). simpl. rewrite Hc. simpl.
  apply arrayExtremum_dense. intros y Hy. apply Hl. by right.
Qed.
End extremum.

(** ** The classes of the elements *)

Lemma on_element_eq el g (dom : Dom) : on_element el g dom el = g (dom el).
Proof. unfold on_element. by rewrite decide_True. Qed.

Lemma on_element_ne el g (dom : Dom) r : r ≠ el → on_element el g dom r = dom r.
Proof. intros Hr. unfold on_element. by rewrite decide_False. Qed.

(** The first loop of both handlers when the selection is not empty: no
    element is left selected, every element is dimmed. *)
Lemma _each_dim (all : list DomRef) (dom0 : Dom) :
  ∃ dom1,
    _each all
      (λ el dom, Ok (on_element el (classList_add "unselected")
                       (on_element el (classList_remove "selected") dom)))
      dom0 = Ok dom1 ∧
    (∀ r, __data__ (dom1 r) = __data__ (dom0 r)) ∧
    (∀ r, r ∈ all →
       ("selected" ∉ classList (dom1 r)) ∧ ("unselected" ∈ classList (dom1 r))) ∧
    (∀ r, r ∉ all → dom1 r = dom0 r).
Proof.
  apply (_each_elements _
    (λ r e, __data__ e = __data__ (dom0 r))
    (λ r e, ("selected" ∉ classList e) ∧ ("unselected" ∈ classList e))); [|done].
  intros el dom _ HK. eexists. split; [done|]. split; [|split].
  - intros r Hr. by rewrite !on_element_ne.
  - rewrite !on_element_eq. simpl. apply HK.
  - rewrite !on_element_eq. simpl. classes.
Qed.

(** The first loop when the selection is empty: all styling goes. *)
Lemma _each_undim (all : list DomRef) (dom0 : Dom) :
  ∃ dom1,
    _each all
      (λ el dom, Ok (on_element el (classList_remove "unselected")
                       (on_element el (classList_remove "selected") dom)))
      dom0 = Ok dom1 ∧
    (∀ r, __data__ (dom1 r) = __data__ (dom0 r)) ∧
    (∀ r, r ∈ all →
       ("selected" ∉ classList (dom1 r)) ∧ ("unselected" ∉ classList (dom1 r))) ∧
    (∀ r, r ∉ all → dom1 r = dom0 r).
Proof.
  apply (_each_elements _
    (λ r e, __data__ e = __data__ (dom0 r))
    (λ r e, ("selected" ∉ classList e) ∧ ("unselected" ∉ classList e))); [|done].
  intros el dom _ HK. eexists. split; [done|]. split; [|split].
  - intros r Hr. by rewrite !on_element_ne.
  - rewrite !on_element_eq. simpl. apply HK.
  - rewrite !on_element_eq. simpl. classes.
Qed.

(** ** Comparable values *)

Lemma rangeable_comparable (type : string) (d : Datum) :
  rangeable type (value d) → comparable d = Ok (comparableNumber d).
Proof.
  unfold comparableNumber, comparable, _getComparableValue.
  destruct (value d); simpl; done.
Qed.

Lemma rangeable_Number (v : Value) :
  rangeable "Number" v → ∃ n, v = VNumber n.
Proof. destruct v; simpl; try done. eauto. Qed.

Lemma rangeEnds_dense (type : string) (e : Data.t) (es : list Data.t) :
  (∀ x, x ∈ e :: es → rangeable type (value (Data.d x))) →
  rangeEnds (dense (e :: es)) = Ok (scan Z.ltb key es e, scan Z.gtb key es e).
Proof.
  intros Hty. unfold rangeEnds, _min, _max.
  rewrite !(arrayExtremum_first _ key); [done| |].
  all: intros x Hx; simpl; apply (rangeable_comparable type), Hty, Hx.
Qed.

Lemma comparableBounds_rangeable (type : string) (first last : Data.t) :
  rangeable type (value (Data.d first)) → rangeable type (value (Data.d last)) →
  ∃ lower upper,
    comparableBounds type first last = Ok (lower, upper) ∧
    toNumber lower = Ok (key first) ∧
    toNumber upper = Ok (upperNumber type (Data.d last)).
Proof.
  intros Hf Hl. unfold comparableBounds, upperNumber.
  pose proof (rangeable_comparable _ _ Hf) as Hkf.
  pose proof (rangeable_comparable _ _ Hl) as Hkl.
  case_bool_decide as Hty.
  - subst type. apply rangeable_Number in Hl as [n Hn].
    unfold comparableNumber, comparable, _getComparableValue in *.
    rewrite Hn in *. simpl. eauto.
  - simpl. eauto.
Qed.

Lemma valueBounds_rangeable (type : string) (first last : Data.t) :
  rangeable type (value (Data.d last)) →
  ∃ upper,
    valueBounds type first last = Ok (value (Data.d first), upper) ∧
    (type = "Number" →
       ∃ n, value (Data.d last) = VNumber n ∧ upper = VNumber (n + dx (Data.d last))) ∧
    (type ≠ "Number" → upper = value (Data.d last)).
Proof.
  intros Hl. unfold valueBounds. case_bool_decide as Hty.
  - subst type. apply rangeable_Number in Hl as [n Hn]. rewrite Hn. simpl.
    eexists. split; [done|]. split; [eauto | done].
  - simpl. eexists. split; [done|]. split; [done | done].
Qed.

(** ** The range handler *)

(** The second loop of the range handler, on elements that the first loop
    has dimmed: those in the range are selected. *)
Lemma _each_inRange (type : string) (all : list DomRef) (dom1 : Dom)
    (lower upper : Comparable) (l u : Z) (upperInclusive : bool) :
  toNumber lower = Ok l → toNumber upper = Ok u →
  (∀ el, el ∈ all → rangeable type (value (__data__ (dom1 el)))) →
  (∀ el, el ∈ all → shownDimmed (dom1 el)) →
  ∃ dom2,
    _each all
      (λ el dom,
         js_ge (_getComparableValue (__data__ (dom el))) lower ≫= λ ge,
         (if ge : bool then
            if upperInclusive
            then js_le (_getComparableValue (__data__ (dom el))) upper
            else js_lt (_getComparableValue (__data__ (dom el))) upper
          else Ok false) ≫= λ inside,
         if inside : bool then
           Ok (on_element el (classList_remove "unselected")
                 (on_element el (classList_add "selected") dom))
         else Ok dom)
      dom1 = Ok dom2 ∧
    (∀ r, __data__ (dom2 r) = __data__ (dom1 r)) ∧
    (∀ r, r ∈ all →
       if inRange l u upperInclusive (comparableNumber (__data__ (dom1 r)))
       then shownSelected (dom2 r) else shownDimmed (dom2 r)) ∧
    (∀ r, r ∉ all → dom2 r = dom1 r).
Proof.
  intros Hl Hu Hty Hdim.
  pose (inside := λ r, inRange l u upperInclusive (comparableNumber (__data__ (dom1 r)))).
  destruct (_each_elements
    (λ el dom,
         js_ge (_getComparableValue (__data__ (dom el))) lower ≫= λ ge,
         (if ge : bool then
            if upperInclusive
            then js_le (_getComparableValue (__data__ (dom el))) upper
            else js_lt (_getComparableValue (__data__ (dom el))) upper
          else Ok false) ≫= λ inside,
         if inside : bool then
           Ok (on_element el (classList_remove "unselected")
                 (on_element el (classList_add "selected") dom))
         else Ok dom)
    (λ r e, __data__ e = __data__ (dom1 r) ∧
            (r ∈ all → inside r = false → shownDimmed e))
    (λ r e, inside r = true → shownSelected e) all dom1)
    as (dom2 & Hrun & HK & HV & Hout).
  - intros el dom Hel HK.
    destruct (HK el) as [Hdata Hkeep]. rewrite Hdata.
    pose proof (rangeable_comparable _ _ (Hty el Hel)) as Hk.
    unfold comparable in Hk. unfold js_ge, js_le, js_lt. rewrite Hk, Hl, Hu. simpl.
    assert (Hin : (if bool_decide (l ≤ comparableNumber (__data__ (dom1 el)))
                   then if upperInclusive
                        then Ok (bool_decide (comparableNumber (__data__ (dom1 el)) ≤ u))
                        else Ok (bool_decide (comparableNumber (__data__ (dom1 el)) < u))
                   else Ok false) = Ok (inside el)).
    { unfold inside, inRange. case_bool_decide; [|done]. by destruct upperInclusive. }
    rewrite Hin. simpl. destruct (inside el) eqn:Hel_in.
    + eexists. split; [done|]. split; [|split].
      * intros r Hr. by rewrite !on_element_ne.
      * rewrite !on_element_eq. simpl. split; [done|]. intros _ [=].
      * intros _. rewrite !on_element_eq. unfold shownSelected. simpl. classes.
    + exists dom. split; [done|]. split; [done|]. split; [|done].
      split; [done|]. intros _ _. by apply Hkeep.
  - intros r. split; [done|]. intros Hr _. by apply Hdim.
  - exists dom2. split; [done|]. split; [intros r; apply HK|]. split; [|done].
    intros r Hr. fold (inside r). destruct (inside r) eqn:Hin.
    + by apply HV.
    + by apply HK.
Qed.

Lemma array_get_dense_0 {A} (e : A) (es : list A) : array_get (dense (e :: es)) 0 = Some e.
Proof. done. Qed.

(** What the handler does when the click leaves a selection [e :: es] of
    values of the type of the field. *)
Lemma handleRangeEvent_selection (w : World) (data : Data.t)
    (e : Data.t) (es : list Data.t) :
  let type := model_getType w in
  let first := scan Z.ltb key es e in
  let last := scan Z.gtb key es e in
  let upperInclusive := bool_decide (dx (Data.d last) = 0) in
  rangeSelect (selectedValues w) data = dense (e :: es) →
  (∀ x, x ∈ e :: es → rangeable type (value (Data.d x))) →
  (∀ el, el ∈ Data.all data → rangeable type (value (__data__ (dom w el)))) →
  ∃ w' lower upper,
    handleRangeEvent w data = Ok w' ∧
    rangeEnds (dense (e :: es)) = Ok (first, last) ∧
    valueBounds type first last = Ok (lower, upper) ∧
    selectedValues w' = dense (e :: es) ∧
    model_getType w' = type ∧
    refineValue w' =
      Some (if strict_equal lower upper then LeafValue lower
            else Range lower upper upperInclusive) ∧
    (∀ r, __data__ (dom w' r) = __data__ (dom w r)) ∧
    (∀ r, r ∈ Data.all data →
       if inRange (key first) (upperNumber type (Data.d last)) upperInclusive
            (comparableNumber (__data__ (dom w r)))
       then shownSelected (dom w' r) else shownDimmed (dom w' r)) ∧
    (∀ r, r ∉ Data.all data → dom w' r = dom w r).
Proof.
  intros type first last upperInclusive Hsel Hty Hall.
  assert (Hfirst : first ∈ e :: es) by apply scan_elem.
  assert (Hlast : last ∈ e :: es) by apply scan_elem.
  destruct (comparableBounds_rangeable type first last)
    as (clower & cupper & Hcb & Hlo & Hup); [by apply Hty..|].
  destruct (valueBounds_rangeable type first last)
    as (upper & Hvb & _); [by apply Hty|].
  destruct (_each_dim (Data.all data) (dom w)) as (dom1 & Hrun1 & Hdata1 & Hdim1 & Hout1).
  destruct (_each_inRange type (Data.all data) dom1 clower cupper _ _ upperInclusive Hlo Hup)
    as (dom2 & Hrun2 & Hdata2 & Hin2 & Hout2).
  { intros el Hel. rewrite Hdata1. by apply Hall. }
  { intros el Hel. by apply Hdim1. }
  eexists _, (value (Data.d first)), upper.
  split; [|split; [by apply (rangeEnds_dense type)|split; [exact Hvb|]]].
  - subst type first last upperInclusive.
    unfold handleRangeEvent. rewrite Hsel, array_get_dense_0.
    rewrite Hrun1. cbn [mbind result_bind].
    rewrite (rangeEnds_dense (model_getType w)) by done. cbn [mbind result_bind].
    rewrite Hcb. cbn [mbind result_bind].
    rewrite Hrun2. cbn [mbind result_bind].
    rewrite Hvb. cbn [mbind result_bind]. reflexivity.
  - simpl. split; [done|]. split; [done|]. split; [done|].
    split; [|split].
    + intros r. by rewrite Hdata2, Hdata1.
    + intros r Hr. specialize (Hin2 r Hr). by rewrite Hdata1 in Hin2.
    + intros r Hr. by rewrite Hout2, Hout1.
Qed.

Lemma scan_least_greatest (e : Data.t) (es : list Data.t) :
  least (scan Z.ltb key es e) (e :: es) ∧ greatest (scan Z.gtb key es e) (e :: es).
Proof.
  split; (split; [apply scan_elem|]); intros x Hx.
  - by apply (scan_least key).
  - by apply (scan_greatest key).
Qed.



Lemma strict_equal_refl (v : Value) : strict_equal v v = true.
Proof. destruct v; simpl; by apply bool_decide_eq_true. Qed.

Lemma same_value_comparableNumber (d1 d2 : Datum) :
  same_value (value d1) (value d2) → comparableNumber d1 = comparableNumber d2.
Proof.
  unfold comparableNumber, comparable, _getComparableValue.
  destruct (value d1), (value d2); simpl; try done.
  intros [Hseconds _]. by subst.
Qed.

(** When the least and the greatest number are the same, both ends are the
    first element of the selection. *)
Lemma scan_ends_tie (e : Data.t) (es : list Data.t) :
  key (scan Z.ltb key es e) = key (scan Z.gtb key es e) →
  scan Z.ltb key es e = e ∧ scan Z.gtb key es e = e.
Proof.
  intros Htie.
  assert (Hall : ∀ x, x ∈ e :: es → key x = key e).
  { intros x Hx.
    pose proof (scan_least key es e x Hx).
    pose proof (scan_greatest key es e x Hx).
    pose proof (scan_least key es e e (list_elem_of_here _ _)).
    pose proof (scan_greatest key es e e (list_elem_of_here _ _)).
    simpl in *. lia. }
  split; apply scan_ties; intros x Hx; specialize (Hall x (list_elem_of_further _ _ _ Hx));
    simpl in *; lia.
Qed.

(** Bounds of the same value are [===]. *)
Lemma same_value_bounds (type : string) (e : Data.t) (es : list Data.t)
    (lower upper : Value) :
  (∀ x, x ∈ e :: es → rangeable type (value (Data.d x))) →
  valueBounds type (scan Z.ltb key es e) (scan Z.gtb key es e) = Ok (lower, upper) →
  same_value lower upper → strict_equal lower upper = true.
Proof.
  intros Hty Hvb Hsame.
  destruct (valueBounds_rangeable type (scan Z.ltb key es e) (scan Z.gtb key es e))
    as (upper' & Hvb' & HNumber & Hother); [apply Hty, scan_elem|].
  rewrite Hvb in Hvb'. injection Hvb' as -> <-.
  destruct (decide (type = "Number")) as [->|Hne].
  - destruct (HNumber eq_refl) as (n & _ & ->).
    destruct (value (Data.d (scan Z.ltb key es e))); simpl in *; try done.
    by apply bool_decide_eq_true.
  - rewrite (Hother Hne) in *.
    apply same_value_comparableNumber in Hsame.
    apply scan_ends_tie in Hsame as [-> ->]. apply strict_equal_refl.
Qed.

(** C3: in range mode, whenever the lower bound taken from [.value] is the
    same value as the upper bound (after the [dx] of a Number field has been
    added), the refine value is the single value, and it is never a range
    between two bounds of the same value; for numbers, dates and
    ObjectIDs alike. *)
Theorem handleRangeEvent_degenerate (w : World) (data : Data.t)
    (e : Data.t) (es : list Data.t) :
  rangeSelect (selectedValues w) data = dense (e :: es) →
  Forall (λ x, rangeable (model_getType w) (value (Data.d x))) (e :: es) →
  Forall (λ el, rangeable (model_getType w) (value (__data__ (dom w el))))
    (Data.all data) →
  ∃ w' first last lower upper,
    handleRangeEvent w data = Ok w' ∧
    rangeEnds (dense (e :: es)) = Ok (first, last) ∧
    valueBounds (model_getType w) first last = Ok (lower, upper) ∧
    (same_value lower upper → refineValue w' = Some (LeafValue lower)) ∧
    (∀ lo up inclusive,
       refineValue w' = Some (Range lo up inclusive) → ¬ same_value lo up).
Proof.
  intros Hsel Hty Hall.
  rewrite Forall_forall in Hty. rewrite Forall_forall in Hall.
  destruct (handleRangeEvent_selection w data e es Hsel Hty Hall)
    as (w' & lower & upper & Hrun & Hends & Hvb & _ & _ & Hrefine & _).
  pose proof (same_value_bounds _ e es lower upper Hty Hvb) as Hsame.
  exists w', (scan Z.ltb key es e), (scan Z.gtb key es e), lower, upper.
  split; [done|]. split; [done|]. split; [done|]. split.
  - intros Heq. by rewrite Hrefine, (Hsame Heq).
  - intros lo up inclusive Hrange Heq. rewrite Hrefine in Hrange.
    destruct (strict_equal lower upper) eqn:Hstrict; [done|].
    injection Hrange as -> -> _. by specialize (Hsame Heq).
Qed.

Lemma handleRangeEvent_degenerate_witness :
  ∃ w' first last lower upper,
    handleRangeEvent
      {| selectedValues := dense [clickOn dates "date" false 0];
         refineValue := None; model_getType := "Date"; dom := chartPage dates |}
      (clickOn dates "date" true 1) = Ok w' ∧
    rangeEnds (dense [clickOn dates "date" false 0; clickOn dates "date" true 1])
      = Ok (first, last) ∧
    valueBounds "Date" first last = Ok (lower, upper) ∧
    (same_value lower upper → refineValue w' = Some (LeafValue lower)) ∧
    (∀ lo up inclusive,
       refineValue w' = Some (Range lo up inclusive) → ¬ same_value lo up).
Proof.
  apply (handleRangeEvent_degenerate
           {| selectedValues := dense [clickOn dates "date" false 0];
              refineValue := None; model_getType := "Date"; dom := chartPage dates |}
           (clickOn dates "date" true 1)
           (clickOn dates "date" false 0) [clickOn dates "date" true 1]).
  - reflexivity.
  - repeat constructor.
  - repeat constructor.
Defined.




(** C10: in range mode a shift-click on an empty selection puts the clicked
    element in the second slot only; the first slot stays empty, so the
    handler goes on as for an empty selection: the refine value is unset
    and no element of [data.all] is left selected or dimmed, although the
    array now has length 2 with the element in its second slot. *)
Theorem handleRangeEvent_shift_on_empty (w : World) (data : Data.t) :
  selectedValues w = [] →
  MODIFIERKEY (Data.evt data) = true →
  ∃ w',
    handleRangeEvent w data = Ok w' ∧
    selectedValues w' = [None; Some data] ∧
    length (selectedValues w') = 2%nat ∧
    array_get (selectedValues w') 0 = None ∧
    array_get (selectedValues w') 1 = Some data ∧
    refineValue w' = None ∧
    (∀ el, el ∈ Data.all data → shownPlain (dom w' el)) ∧
    (∀ el, el ∉ Data.all data → dom w' el = dom w el).
Proof.
  intros Hempty Hshift.
  destruct (_each_undim (Data.all data) (dom w)) as (dom1 & Hrun1 & _ & Hplain & Hout).
  eexists. split.
  - unfold handleRangeEvent, rangeSelect. rewrite Hempty, Hshift. simpl.
    rewrite Hrun1. simpl. reflexivity.
  - simpl. split; [done|]. split; [done|]. split; [done|]. split; [done|].
    split; [done|]. split; [exact Hplain | exact Hout].
Qed.

Lemma handleRangeEvent_shift_on_empty_witness :
  ∃ w',
    handleRangeEvent (freshView "Number" (chartPage binned))
      (clickOn binned "many" true 1) = Ok w' ∧
    selectedValues w' = [None; Some (clickOn binned "many" true 1)] ∧
    length (selectedValues w') = 2%nat ∧
    array_get (selectedValues w') 0 = None ∧
    array_get (selectedValues w') 1 = Some (clickOn binned "many" true 1) ∧
    refineValue w' = None ∧
    (∀ el, el ∈ seq 0 4 → shownPlain (dom w' el)) ∧
    (∀ el, el ∉ seq 0 4 → dom w' el = chartPage binned el).
Proof.
  apply (handleRangeEvent_shift_on_empty (freshView "Number" (chartPage binned))
           (clickOn binned "many" true 1)); reflexivity.
Defined.

(** ** The order of the two clicks *)

(** C2 as it is stated fails: two ObjectIDs made in the same second are
    different values of the same comparable value, [_.min] and [_.max] both
    give the one clicked first, and the refine value is that single value:
    a click on a and a shift-click on b give a, the other way round b. *)
Lemma clickOrderInvariant_fails :
  value (Data.d (clickOn ids "date" false 0)) ≠ value (Data.d (clickOn ids "date" false 1)) ∧
  refineValue <$>
    interactions handleRangeEvent (freshView "ObjectID" (chartPage ids))
      [withShift false (clickOn ids "date" false 0);
       withShift true (clickOn ids "date" false 1)]
  = Ok (Some (LeafValue (VObjectID 1%nat 1500000000 1))) ∧
  refineValue <$>
    interactions handleRangeEvent (freshView "ObjectID" (chartPage ids))
      [withShift false (clickOn ids "date" false 1);
       withShift true (clickOn ids "date" false 0)]
  = Ok (Some (LeafValue (VObjectID 2%nat 1500000000 2))) ∧
  boundsAfter (freshView "ObjectID" (chartPage ids))
    (clickOn ids "date" false 0) (clickOn ids "date" false 1)
  = Ok (Some (VObjectID 1%nat 1500000000 1, VObjectID 1%nat 1500000000 1)) ∧
  boundsAfter (freshView "ObjectID" (chartPage ids))
    (clickOn ids "date" false 1) (clickOn ids "date" false 0)
  = Ok (Some (VObjectID 2%nat 1500000000 2, VObjectID 2%nat 1500000000 2)) ∧
  ¬ clickOrderInvariant (freshView "ObjectID" (chartPage ids))
      (clickOn ids "date" false 0) (clickOn ids "date" false 1).
Proof.
  split; [done|]. do 4 (split; [vm_compute; reflexivity|]).
  unfold clickOrderInvariant. vm_compute. discriminate.
Qed.

Lemma valueBounds_d (type : string) (first last first' last' : Data.t) :
  Data.d first = Data.d first' → Data.d last = Data.d last' →
  valueBounds type first last = valueBounds type first' last'.
Proof. unfold valueBounds. by intros -> ->. Qed.

(** The ends of a selection of two elements of different numbers are the
    lesser and the greater one, in whichever order they stand. *)
Lemma scan_two (a b a' b' : Data.t) :
  Data.d a' = Data.d a → Data.d b' = Data.d b →
  key a ≠ key b →
  Data.d (scan Z.ltb key [b] a) = Data.d (scan Z.ltb key [a'] b') ∧
  Data.d (scan Z.gtb key [b] a) = Data.d (scan Z.gtb key [a'] b').
Proof.
  intros Ha Hb Hne. unfold scan. simpl. rewrite Ha, Hb.
  destruct (Z.ltb_spec (comparableNumber (Data.d b)) (comparableNumber (Data.d a)));
  destruct (Z.ltb_spec (comparableNumber (Data.d a)) (comparableNumber (Data.d b)));
  destruct (Z.gtb_spec (comparableNumber (Data.d b)) (comparableNumber (Data.d a)));
  destruct (Z.gtb_spec (comparableNumber (Data.d a)) (comparableNumber (Data.d b)));
  simpl in *; try lia; by rewrite ?Ha, ?Hb.
Qed.

(** A click that is not on the first end, then a shift-click. *)
Lemma handleRangeEvent_click_shift (w : World) (a b : Data.t) :
  let type := model_getType w in
  let sel := [withShift false a; withShift true b] in
  match array_get (selectedValues w) 0 with
  | Some s0 => label (Data.d s0) ≠ label (Data.d a)
  | None => True
  end →
  rangeable type (value (Data.d a)) → rangeable type (value (Data.d b)) →
  (∀ el, el ∈ Data.all a ++ Data.all b → rangeable type (value (__data__ (dom w el)))) →
  ∃ w' lower upper,
    interactions handleRangeEvent w sel = Ok w' ∧
    valueBounds type (scan Z.ltb key [withShift true b] (withShift false a))
      (scan Z.gtb key [withShift true b] (withShift false a)) = Ok (lower, upper) ∧
    refineValue w' =
      Some (if strict_equal lower upper then LeafValue lower
            else Range lower upper
                   (bool_decide
                      (dx (Data.d (scan Z.gtb key [withShift true b] (withShift false a)))
                       = 0))).
Proof.
  intros type sel Hfirst Ha Hb Hall.
  destruct (handleRangeEvent_selection w (withShift false a) (withShift false a) [])
    as (w1 & _ & _ & Hrun1 & _ & _ & Hsel1 & Htype1 & _ & Hdata1 & _).
  { unfold rangeSelect. simpl. destruct (array_get (selectedValues w) 0); [|done].
    by rewrite bool_decide_eq_false_2. }
  { intros x Hx. apply list_elem_of_singleton in Hx as ->. exact Ha. }
  { intros el Hel. apply Hall. apply elem_of_app. by left. }
  destruct (handleRangeEvent_selection w1 (withShift true b)
              (withShift false a) [withShift true b])
    as (w2 & lower & upper & Hrun2 & _ & Hvb & _ & _ & Hrefine & _).
  { unfold rangeSelect. simpl. by rewrite Hsel1. }
  { rewrite Htype1. intros x Hx.
    apply elem_of_cons in Hx as [->|Hx]; [exact Ha|].
    apply list_elem_of_singleton in Hx as ->. exact Hb. }
  { rewrite Htype1. intros el Hel. rewrite Hdata1. apply Hall. apply elem_of_app. by right. }
  exists w2, lower, upper. rewrite Htype1 in Hvb.
  split; [|split; [exact Hvb | exact Hrefine]].
  unfold interactions, sel. simpl. rewrite Hrun1. simpl. rewrite Hrun2. done.
Qed.

(** C2, amended: for two elements of different comparable values (for
    ObjectIDs: of different creation times), and a selection whose first end
    is neither of them, a click on one and a shift-click on the other give
    the same refine value in either order. *)
Theorem clickOrder_same_refineValue (w : World) (a b : Data.t) :
  match array_get (selectedValues w) 0 with
  | Some s0 => label (Data.d s0) ≠ label (Data.d a) ∧ label (Data.d s0) ≠ label (Data.d b)
  | None => True
  end →
  rangeable (model_getType w) (value (Data.d a)) →
  rangeable (model_getType w) (value (Data.d b)) →
  Forall (λ el, rangeable (model_getType w) (value (__data__ (dom w el))))
    (Data.all a ++ Data.all b) →
  comparableNumber (Data.d a) ≠ comparableNumber (Data.d b) →
  ∃ w1 w2 p,
    interactions handleRangeEvent w [withShift false a; withShift true b] = Ok w1 ∧
    interactions handleRangeEvent w [withShift false b; withShift true a] = Ok w2 ∧
    refineValue w1 = Some p ∧ refineValue w2 = Some p ∧
    clickOrderInvariant w a b.
Proof.
  intros Hfirst Ha Hb Hall Hne. rewrite Forall_forall in Hall.
  destruct (handleRangeEvent_click_shift w a b)
    as (w1 & lower & upper & Hrun1 & Hvb1 & Hrefine1); [|done|done|done|].
  { destruct (array_get (selectedValues w) 0); [apply Hfirst | done]. }
  destruct (handleRangeEvent_click_shift w b a)
    as (w2 & lower' & upper' & Hrun2 & Hvb2 & Hrefine2); [|done|done| |].
  { destruct (array_get (selectedValues w) 0); [apply Hfirst | done]. }
  { intros el Hel. apply Hall. apply elem_of_app. apply elem_of_app in Hel. tauto. }
  destruct (scan_two (withShift false a) (withShift true b)
              (withShift true a) (withShift false b)) as [Hlo Hhi]; [done..|].
  rewrite (valueBounds_d _ _ _ _ _ Hlo Hhi), Hvb2 in Hvb1.
  injection Hvb1 as <- <-. rewrite Hhi in Hrefine1. rewrite <- Hrefine2 in Hrefine1.
  exists w1, w2, (if strict_equal lower' upper' then LeafValue lower'
                  else Range lower' upper'
                         (bool_decide
                            (dx (Data.d (scan Z.gtb key [withShift true a]
                                           (withShift false b))) = 0))).
  split; [done|]. split; [done|]. split; [by rewrite Hrefine1, Hrefine2|].
  split; [done|].
  unfold clickOrderInvariant, boundsAfter. rewrite Hrun1, Hrun2. simpl.
  by rewrite Hrefine1.
Qed.

Lemma clickOrder_same_refineValue_witness :
  ∃ w1 w2 p,
    interactions handleRangeEvent (freshView "ObjectID" (chartPage ids))
      [withShift false (clickOn ids "date" false 2);
       withShift true (clickOn ids "date" false 0)] = Ok w1 ∧
    interactions handleRangeEvent (freshView "ObjectID" (chartPage ids))
      [withShift false (clickOn ids "date" false 0);
       withShift true (clickOn ids "date" false 2)] = Ok w2 ∧
    refineValue w1 = Some p ∧ refineValue w2 = Some p ∧
    clickOrderInvariant (freshView "ObjectID" (chartPage ids))
      (clickOn ids "date" false 2) (clickOn ids "date" false 0).
Proof.
  apply (clickOrder_same_refineValue (freshView "ObjectID" (chartPage ids))
           (clickOn ids "date" false 2) (clickOn ids "date" false 0)).
  - exact I.
  - reflexivity.
  - reflexivity.
  - repeat constructor.
  - vm_compute. discriminate.
Defined.

(** ** The distinct handler *)

Lemma array_map_dense {A B} (f : A → B) (l : list A) :
  array_map f (dense l) = dense (f <$> l).
Proof. unfold array_map, dense. by rewrite <- !list_fmap_compose. Qed.

Lemma _contains_pluck_dense (entries : list Data.t) (l : string) :
  _contains (_pluck (dense entries) (label ∘ Data.d)) l =
  bool_decide (l ∈ (label ∘ Data.d) <$> entries).
Proof.
  unfold _contains, _pluck, array_map, dense.
  apply bool_decide_ext. rewrite <- list_fmap_compose.
  rewrite !list_elem_of_fmap. split.
  - intros (x & [= ->] & Hx). eauto.
  - intros (x & -> & Hx). eauto.
Qed.

Lemma _remove_dense (entries : list Data.t) (l : string) :
  _remove (dense entries)
    (λ d, d ← deref d; Ok (bool_decide (label (Data.d d) = l))) =
  Ok (dense (filter (λ x, label (Data.d x) ≠ l) entries)).
Proof.
  induction entries as [|x entries IH]; [done|].
  change (dense (x :: entries)) with (Some x :: dense entries).
  cbn [_remove deref mbind result_bind]. rewrite IH. cbn [mbind result_bind].
  rewrite filter_cons. case_bool_decide; case_decide; done.
Qed.

Lemma distinctSelect_dense (entries : list Data.t) (data : Data.t) :
  distinctSelect (dense entries) data = Ok (dense (toggle entries data)).
Proof.
  unfold distinctSelect, toggle. destruct (MODIFIERKEY (Data.evt data)); simpl.
  - rewrite _contains_pluck_dense. case_bool_decide.
    + apply _remove_dense.
    + unfold array_push, dense. by rewrite fmap_app.
  - destruct entries as [|s0 [|s1 entries]]; simpl; try done.
    by case_bool_decide.
Qed.

(** What the handler does once the click has left the selection [entries]. *)
Lemma handleDistinctEvent_selection (w : World) (data : Data.t) (entries : list Data.t) :
  distinctSelect (selectedValues w) data = Ok (dense entries) →
  ∃ w',
    handleDistinctEvent w data = Ok w' ∧
    selectedValues w' = dense entries ∧
    model_getType w' = model_getType w ∧
    refineValue w' = refineOf entries.
Proof.
  intros Hsel. unfold handleDistinctEvent. rewrite Hsel. cbn [mbind result_bind].
  destruct (_each_invariant
    (λ el dom,
       if bool_decide (length (dense entries) = 0%nat)
       then Ok (on_element el (classList_remove "unselected")
                  (on_element el (classList_remove "selected") dom))
       else Ok (on_element el (classList_add "unselected")
                  (on_element el (classList_remove "selected") dom)))
    (λ _, True) (Data.all data) (dom w)) as (dom1 & Hrun1 & _); [|done|].
  { intros el dom _ _. case_bool_decide; eauto. }
  rewrite Hrun1. cbn [mbind result_bind].
  destruct (_each_invariant
    (λ (selected : option Data.t) (dom : Dom),
       deref selected ≫= λ selected,
       Ok (on_element (Data.self selected) (classList_remove "unselected")
             (on_element (Data.self selected) (classList_add "selected") dom)))
    (λ _, True) (dense entries) dom1) as (dom2 & Hrun2 & _); [|done|].
  { intros x dom Hx _. apply list_elem_of_fmap in Hx as (s & -> & _). simpl. eauto. }
  rewrite Hrun2. cbn [mbind result_bind].
  rewrite array_map_dense.
  destruct entries as [|s0 [|s1 entries]]; simpl;
    (eexists; split; [reflexivity|]; by repeat split).
Qed.

Lemma filter_labels_NoDup (P : Data.t → Prop) `{∀ x, Decision (P x)} (entries : list Data.t) :
  NoDup (labels entries) → NoDup (labels (filter P entries)).
Proof.
  induction entries as [|x entries IH]; [done|].
  rewrite fmap_cons, filter_cons. intros [Hx Hdup]%NoDup_cons.
  destruct (decide (P x)); [|by apply IH].
  rewrite fmap_cons. apply NoDup_cons. split; [|by apply IH].
  intros (y & Hy & Hin%list_elem_of_filter)%list_elem_of_fmap.
  apply Hx. apply list_elem_of_fmap. exists y. tauto.
Qed.

(** The labels of the selection stay distinct. *)
Lemma toggle_NoDup (entries : list Data.t) (data : Data.t) :
  NoDup (labels entries) → NoDup (labels (toggle entries data)).
Proof.
  intros Hdup. unfold toggle. destruct (MODIFIERKEY (Data.evt data)).
  - case_bool_decide as Hin.
    + by apply filter_labels_NoDup.
    + rewrite fmap_app. apply NoDup_app. split; [done|]. split; [|apply NoDup_singleton].
      intros l Hl [= ->]%list_elem_of_singleton. done.
  - destruct entries as [|s0 [|s1 entries]]; try apply NoDup_singleton.
    case_bool_decide; [apply NoDup_nil_2 | apply NoDup_singleton].
Qed.

Lemma handleDistinctEvent_dense (w : World) (data : Data.t) (entries : list Data.t) :
  selectedValues w = dense entries →
  ∃ w',
    handleDistinctEvent w data = Ok w' ∧
    selectedValues w' = dense (toggle entries data) ∧
    model_getType w' = model_getType w ∧
    refineValue w' = refineOf (toggle entries data).
Proof.
  intros Hsel. apply handleDistinctEvent_selection.
  rewrite Hsel. apply distinctSelect_dense.
Qed.

Lemma interactions_distinct (events : list Data.t) (w : World) (entries : list Data.t) :
  selectedValues w = dense entries → NoDup (labels entries) →
  ∃ w' entries',
    interactions handleDistinctEvent w events = Ok w' ∧
    selectedValues w' = dense entries' ∧ NoDup (labels entries').
Proof.
  revert w entries. induction events as [|data events IH]; intros w entries Hsel Hdup.
  - exists w, entries. done.
  - destruct (handleDistinctEvent_dense w data entries Hsel) as (w1 & Hrun & Hsel1 & _).
    destruct (IH w1 _ Hsel1 (toggle_NoDup entries data Hdup)) as (w' & entries' & Hrest & ?).
    exists w', entries'. split; [|done].
    unfold interactions in *. simpl. rewrite Hrun. exact Hrest.
Qed.

(** C5: a shift-click in distinct mode adds the clicked element at the end
    of the selection when its label is not selected, and takes every entry
    of that label out when it is; so after any run of clicks in distinct
    mode from the empty selection no two entries have the same label. *)
Theorem handleDistinctEvent_shift_click :
  (∀ (w : World) (data : Data.t) (entries : list Data.t),
     selectedValues w = dense entries →
     MODIFIERKEY (Data.evt data) = true →
     ∃ w',
       handleDistinctEvent w data = Ok w' ∧
       (label (Data.d data) ∉ labels entries →
        selectedValues w' = dense (entries ++ [data])) ∧
       (label (Data.d data) ∈ labels entries →
        selectedValues w' =
          dense (filter (λ x, label (Data.d x) ≠ label (Data.d data)) entries) ∧
        label (Data.d data) ∉ labels (filter (λ x, label (Data.d x) ≠ label (Data.d data)) entries))) ∧
  (∀ (w : World) (events : list Data.t),
     selectedValues w = [] →
     ∃ w' entries,
       interactions handleDistinctEvent w events = Ok w' ∧
       selectedValues w' = dense entries ∧
       NoDup (labels entries)).
Proof.
  split.
  - intros w data entries Hsel Hshift.
    destruct (handleDistinctEvent_dense w data entries Hsel) as (w' & Hrun & Hsel' & _).
    exists w'. split; [done|]. unfold toggle in Hsel'. rewrite Hshift in Hsel'.
    split; intros Hin.
    + by rewrite bool_decide_eq_false_2 in Hsel'.
    + rewrite bool_decide_eq_true_2 in Hsel' by done. split; [done|].
      intros (y & Hy & Hfilter%list_elem_of_filter)%list_elem_of_fmap.
      destruct Hfilter as [Hne _]. simpl in Hy. congruence.
  - intros w events Hsel. apply (interactions_distinct events w []); [done|].
    apply NoDup_nil_2.
Qed.

Lemma handleDistinctEvent_shift_click_witness :
  (∃ w',
     handleDistinctEvent
       {| selectedValues := dense [clickOn letters "few" false 0];
          refineValue := None; model_getType := "String"; dom := chartPage letters |}
       (clickOn letters "few" true 1) = Ok w' ∧
     (label (Data.d (clickOn letters "few" true 1)) ∉ labels [clickOn letters "few" false 0] →
      selectedValues w' =
        dense ([clickOn letters "few" false 0] ++ [clickOn letters "few" true 1])) ∧
     (label (Data.d (clickOn letters "few" true 1)) ∈ labels [clickOn letters "few" false 0] →
      selectedValues w' =
        dense (filter (λ x, label (Data.d x) ≠ label (Data.d (clickOn letters "few" true 1)))
                 [clickOn letters "few" false 0]) ∧
      label (Data.d (clickOn letters "few" true 1)) ∉
        labels (filter (λ x, label (Data.d x) ≠ label (Data.d (clickOn letters "few" true 1)))
                  [clickOn letters "few" false 0]))) ∧
  (∃ w' entries,
     interactions handleDistinctEvent (freshView "String" (chartPage letters))
       [clickOn letters "few" false 0; clickOn letters "few" true 1;
        clickOn letters "few" true 0] = Ok w' ∧
     selectedValues w' = dense entries ∧
     NoDup (labels entries)).
Proof.
  split.
  - apply (proj1 handleDistinctEvent_shift_click
             {| selectedValues := dense [clickOn letters "few" false 0];
                refineValue := None; model_getType := "String"; dom := chartPage letters |}
             (clickOn letters "few" true 1) [clickOn letters "few" false 0]);
      reflexivity.
  - apply (proj2 handleDistinctEvent_shift_click
             (freshView "String" (chartPage letters))
             [clickOn letters "few" false 0; clickOn letters "few" true 1;
              clickOn letters "few" true 0]).
    reflexivity.
Defined.

(** C6: a click without shift in distinct mode clears the selection and
    unsets the refine value when the selection is the clicked element alone;
    in every other case the clicked element becomes the whole selection. *)
Theorem handleDistinctEvent_click (w : World) (data : Data.t) :
  MODIFIERKEY (Data.evt data) = false →
  selectedValues w ≠ [None] →
  ∃ w',
    handleDistinctEvent w data = Ok w' ∧
    ((∃ s0, selectedValues w = [Some s0] ∧ Data.self s0 = Data.self data) →
     selectedValues w' = [] ∧ refineValue w' = None) ∧
    (¬ (∃ s0, selectedValues w = [Some s0] ∧ Data.self s0 = Data.self data) →
     selectedValues w' = [Some data] ∧
     refineValue w' = Some (LeafValue (value (Data.d data)))).
Proof.
  intros Hshift Hhole.
  assert (Hsel : ∃ entries,
    distinctSelect (selectedValues w) data = Ok (dense entries) ∧
    ((∃ s0, selectedValues w = [Some s0] ∧ Data.self s0 = Data.self data) → entries = []) ∧
    (¬ (∃ s0, selectedValues w = [Some s0] ∧ Data.self s0 = Data.self data) →
     entries = [data])).
  { unfold distinctSelect. rewrite Hshift. simpl.
    destruct (selectedValues w) as [|[s0|] [|s1 sv]]; simpl; try done.
    - exists [data]. split; [done|]. split; [by intros (? & [=] & _) | done].
    - case_bool_decide as Hself.
      + exists []. split; [done|]. split; [done|]. intros []. eauto.
      + exists [data]. split; [done|]. split; [|done].
        by intros (? & [= <-] & ?).
    - exists [data]. split; [done|]. split; [by intros (? & [=] & _) | done].
    - exists [data]. split; [done|]. split; [by intros (? & [=] & _) | done]. }
  destruct Hsel as (entries & Hsel & Hsame & Hother).
  destruct (handleDistinctEvent_selection w data entries Hsel)
    as (w' & Hrun & Hsel' & _ & Hrefine).
  exists w'. split; [done|]. split; intros Hcase.
  - rewrite Hsel', Hrefine, (Hsame Hcase). done.
  - rewrite Hsel', Hrefine, (Hother Hcase). done.
Qed.

Lemma handleDistinctEvent_click_witness :
  ∃ w',
    handleDistinctEvent
      {| selectedValues := dense [clickOn letters "few" false 0];
         refineValue := Some (LeafValue (VString "a"));
         model_getType := "String"; dom := chartPage letters |}
      (clickOn letters "few" false 0) = Ok w' ∧
    ((∃ s0, dense [clickOn letters "few" false 0] = [Some s0] ∧
            Data.self s0 = Data.self (clickOn letters "few" false 0)) →
     selectedValues w' = [] ∧ refineValue w' = None) ∧
    (¬ (∃ s0, dense [clickOn letters "few" false 0] = [Some s0] ∧
              Data.self s0 = Data.self (clickOn letters "few" false 0)) →
     selectedValues w' = [Some (clickOn letters "few" false 0)] ∧
     refineValue w' = Some (LeafValue (value (Data.d (clickOn letters "few" false 0))))).
Proof.
  apply (handleDistinctEvent_click
           {| selectedValues := dense [clickOn letters "few" false 0];
              refineValue := Some (LeafValue (VString "a"));
              model_getType := "String"; dom := chartPage letters |}
           (clickOn letters "few" false 0)).
  - reflexivity.
  - discriminate.
Defined.

(** C7: after an interaction in distinct mode the refine value goes by the
    size of the selection it has left: unset when nothing is selected, the
    value of the element when one is, the list of the values of the
    elements when more are.  On a String field with the elements a and b,
    a click on a gives the value a, then a shift-click on b gives the list
    of a and b. *)
Theorem handleDistinctEvent_refineValue :
  (∀ (w : World) (data : Data.t) (entries : list Data.t),
     selectedValues w = dense entries →
     ∃ w' entries',
       handleDistinctEvent w data = Ok w' ∧
       selectedValues w' = dense entries' ∧
       refineValue w' =
         match entries' with
         | [] => None
         | [s0] => Some (LeafValue (value (Data.d s0)))
         | _ => Some (ListOperator_in (dense ((value ∘ Data.d) <$> entries')))
         end) ∧
  refineValue <$>
    interactions handleDistinctEvent (freshView "String" (chartPage letters))
      [clickOn letters "few" false 0]
  = Ok (Some (LeafValue (VString "a"))) ∧
  refineValue <$>
    interactions handleDistinctEvent (freshView "String" (chartPage letters))
      [clickOn letters "few" false 0; clickOn letters "few" true 1]
  = Ok (Some (ListOperator_in [Some (VString "a"); Some (VString "b")])) ∧
  refineValue <$>
    interactions handleDistinctEvent (freshView "String" (chartPage letters))
      [clickOn letters "few" false 0; clickOn letters "few" true 1;
       clickOn letters "few" false 0]
  = Ok (Some (LeafValue (VString "a"))) ∧
  refineValue <$>
    interactions handleDistinctEvent (freshView "String" (chartPage letters))
      [clickOn letters "few" false 0; clickOn letters "few" true 1;
       clickOn letters "few" false 0; clickOn letters "few" false 0]
  = Ok None.
Proof.
  split; [|repeat split; vm_compute; reflexivity].
  intros w data entries Hsel.
  destruct (handleDistinctEvent_dense w data entries Hsel) as (w' & Hrun & Hsel' & _ & Hrefine).
  exists w', (toggle entries data). done.
Qed.

Lemma handleDistinctEvent_refineValue_witness :
  ∃ w' entries',
    handleDistinctEvent
      {| selectedValues := dense [clickOn letters "few" false 0];
         refineValue := Some (LeafValue (VString "a"));
         model_getType := "String"; dom := chartPage letters |}
      (clickOn letters "few" true 1) = Ok w' ∧
    selectedValues w' = dense entries' ∧
    refineValue w' =
      match entries' with
      | [] => None
      | [s0] => Some (LeafValue (value (Data.d s0)))
      | _ => Some (ListOperator_in (dense ((value ∘ Data.d) <$> entries')))
      end.
Proof.
  apply (proj1 handleDistinctEvent_refineValue
           {| selectedValues := dense [clickOn letters "few" false 0];
              refineValue := Some (LeafValue (VString "a"));
              model_getType := "String"; dom := chartPage letters |}
           (clickOn letters "few" true 1) [clickOn letters "few" false 0]).
  reflexivity.
Defined.

(** ** The dispatch *)

(** C8: the entry point routes by the type of the field: Boolean and String
    to the distinct handler; Number to the distinct handler when the event
    comes from 'unique' and to the range handler when it does not; Date and
    ObjectID to the range handler. *)
Theorem handleQueryBuilderEvent_routes (w : World) (data : Data.t) :
  (model_getType w = "Boolean" ∨ model_getType w = "String" →
   handleQueryBuilderEvent w data = routed handleDistinctEvent w data) ∧
  (model_getType w = "Number" → Data.source data = "unique" →
   handleQueryBuilderEvent w data = routed handleDistinctEvent w data) ∧
  (model_getType w = "Number" → Data.source data ≠ "unique" →
   handleQueryBuilderEvent w data = routed handleRangeEvent w data) ∧
  (model_getType w = "Date" ∨ model_getType w = "ObjectID" →
   handleQueryBuilderEvent w data = routed handleRangeEvent w data).
Proof.
  unfold handleQueryBuilderEvent, routed, handled. repeat split.
  - intros [-> | ->]; done.
  - intros -> Hsource. simpl. by rewrite Hsource.
  - intros -> Hsource. simpl. by rewrite bool_decide_eq_false_2.
  - intros [-> | ->]; done.
Qed.

Lemma handleQueryBuilderEvent_routes_witness :
  (handleQueryBuilderEvent (freshView "Boolean" (chartPage letters))
     (clickOn letters "few" false 0)
   = routed handleDistinctEvent (freshView "Boolean" (chartPage letters))
       (clickOn letters "few" false 0)) ∧
  (handleQueryBuilderEvent (freshView "String" (chartPage letters))
     (clickOn letters "few" false 0)
   = routed handleDistinctEvent (freshView "String" (chartPage letters))
       (clickOn letters "few" false 0)) ∧
  (handleQueryBuilderEvent (freshView "Number" (chartPage unbinned))
     (clickOn unbinned "unique" false 0)
   = routed handleDistinctEvent (freshView "Number" (chartPage unbinned))
       (clickOn unbinned "unique" false 0)) ∧
  (handleQueryBuilderEvent (freshView "Number" (chartPage binned))
     (clickOn binned "many" false 0)
   = routed handleRangeEvent (freshView "Number" (chartPage binned))
       (clickOn binned "many" false 0)) ∧
  (handleQueryBuilderEvent (freshView "Date" (chartPage dates))
     (clickOn dates "date" false 0)
   = routed handleRangeEvent (freshView "Date" (chartPage dates))
       (clickOn dates "date" false 0)) ∧
  (handleQueryBuilderEvent (freshView "ObjectID" (chartPage ids))
     (clickOn ids "date" false 0)
   = routed handleRangeEvent (freshView "ObjectID" (chartPage ids))
       (clickOn ids "date" false 0)).
Proof.
  split; [|split; [|split; [|split; [|split]]]].
  - apply (proj1 (handleQueryBuilderEvent_routes
                    (freshView "Boolean" (chartPage letters))
                    (clickOn letters "few" false 0))).
    left. reflexivity.
  - apply (proj1 (handleQueryBuilderEvent_routes
                    (freshView "String" (chartPage letters))
                    (clickOn letters "few" false 0))).
    right. reflexivity.
  - apply (proj1 (proj2 (handleQueryBuilderEvent_routes
                    (freshView "Number" (chartPage unbinned))
                    (clickOn unbinned "unique" false 0)))); reflexivity.
  - apply (proj1 (proj2 (proj2 (handleQueryBuilderEvent_routes
                    (freshView "Number" (chartPage binned))
                    (clickOn binned "many" false 0))))); [reflexivity | discriminate].
  - apply (proj2 (proj2 (proj2 (handleQueryBuilderEvent_routes
                    (freshView "Date" (chartPage dates))
                    (clickOn dates "date" false 0))))).
    left. reflexivity.
  - apply (proj2 (proj2 (proj2 (handleQueryBuilderEvent_routes
                    (freshView "ObjectID" (chartPage ids))
                    (clickOn ids "date" false 0))))).
    right. reflexivity.
Defined.

(** C9: for a field of any type other than Boolean, String, Number, Date
    and ObjectID the entry point changes nothing: the selection, the refine
    value and the elements stay as they are, and nothing is thrown. *)
Theorem handleQueryBuilderEvent_other_type (w : World) (data : Data.t) :
  model_getType w ∉ ["Boolean"; "String"; "Number"; "Date"; "ObjectID"] →
  handleQueryBuilderEvent w data = Ok (w, Data.evt (handled data)).
Proof.
  intros Hother. unfold handleQueryBuilderEvent.
  rewrite !bool_decide_eq_false_2; [done|..];
    intros Htype; apply Hother; rewrite Htype; repeat constructor.
Qed.

Lemma handleQueryBuilderEvent_other_type_witness :
  handleQueryBuilderEvent
    {| selectedValues := dense [clickOn letters "few" false 0];
       refineValue := Some (LeafValue (VString "a"));
       model_getType := "Array"; dom := chartPage letters |}
    (clickOn letters "few" true 1)
  = Ok ({| selectedValues := dense [clickOn letters "few" false 0];
           refineValue := Some (LeafValue (VString "a"));
           model_getType := "Array"; dom := chartPage letters |},
        Data.evt (handled (clickOn letters "few" true 1))).
Proof.
  apply (handleQueryBuilderEvent_other_type
           {| selectedValues := dense [clickOn letters "few" false 0];
              refineValue := Some (LeafValue (VString "a"));
              model_getType := "Array"; dom := chartPage letters |}
           (clickOn letters "few" true 1)).
  apply (bool_decide_unpack _). vm_compute. exact I.
Defined.

(** ** Coercions *)

Lemma supported_bind {A B} (m : result A) (f : A → result B) :
  supported m → (∀ a, m = Ok a → supported (f a)) → supported (m ≫= f).
Proof.
  destruct m as [a|[]]; simpl; intros Hm Hf.
  - by apply Hf.
  - done.
  - by destruct Hm.
Qed.

Lemma supported_deref {A} (o : option A) : supported (deref o).
Proof. by destruct o. Qed.

Lemma _each_supported {A S} (f : A → S → result S) (I : S → Prop) (l : list A) (s : S) :
  (∀ x s, x ∈ l → I s → supported (f x s) ∧ ∀ s', f x s = Ok s' → I s') →
  I s → supported (_each l f s).
Proof.
  revert s. induction l as [|x l IH]; intros s Hstep Hs; [done|]. simpl.
  destruct (Hstep x s) as [Hx Hnext]; [left | done |].
  apply supported_bind; [done|]. intros s' Hs'. apply IH; [|by apply Hnext].
  intros y t Hy. apply Hstep. by right.
Qed.

Lemma _remove_supported {A} (array : Array A) (predicate : option A → result bool) :
  (∀ x, supported (predicate x)) → supported (_remove array predicate).
Proof.
  intros Hp. induction array as [|x array IH]; [done|]. simpl.
  apply supported_bind; [done|]. intros b _.
  apply supported_bind; [done|]. done.
Qed.

(** The distinct handler coerces nothing. *)
Lemma handleDistinctEvent_supported (w : World) (data : Data.t) :
  supported (handleDistinctEvent w data).
Proof.
  unfold handleDistinctEvent.
  apply supported_bind.
  { unfold distinctSelect. destruct (negb _).
    - apply supported_bind; [|done]. case_bool_decide; [|done].
      apply supported_bind; [apply supported_deref | done].
    - destruct (_contains _ _); [|done]. apply _remove_supported.
      intros x. apply supported_bind; [apply supported_deref | done]. }
  intros sv1 _. apply supported_bind.
  { apply (_each_supported _ (λ _, True)); [|done].
    intros el dom _ _. by case_bool_decide. }
  intros dom1 _. apply supported_bind.
  { apply (_each_supported _ (λ _, True)); [|done].
    intros x dom _ _. split; [|done].
    apply supported_bind; [apply supported_deref | done]. }
  intros dom2 _. apply supported_bind; [|done].
  case_bool_decide; [done|]. case_bool_decide; [|done].
  apply supported_bind; [apply supported_deref | done].
Qed.

Lemma arrayExtremum_supported (type : string) (array : Array Data.t)
    comparator (computed : option Z) (res : option Data.t) :
  (∀ x, Some x ∈ array → rangeable type (value (Data.d x))) →
  (∀ x, res = Some x → rangeable type (value (Data.d x))) →
  supported
    (arrayExtremum array (λ el, el ← deref el; Ok (_getComparableValue (Data.d el)))
       comparator computed res) ∧
  ∀ m x,
    arrayExtremum array (λ el, el ← deref el; Ok (_getComparableValue (Data.d el)))
      comparator computed res = Ok m →
    m = Some x → rangeable type (value (Data.d x)).
Proof.
  revert computed res. induction array as [|[e|] array IH]; intros computed res Harray Hres.
  - simpl. split; [done|]. intros m x [= <-]. apply Hres.
  - simpl. fold (comparable (Data.d e)).
    rewrite (rangeable_comparable type) by (apply Harray; left).
    simpl. destruct (match computed with None => true | Some c => _ end).
    + apply IH; [intros x Hx; apply Harray; by right|].
      intros x [= <-]. apply Harray. left.
    + apply IH; [intros x Hx; apply Harray; by right | done].
  - simpl. split; [done|]. intros m x [=].
Qed.

Lemma rangeEnds_supported (type : string) (sel : Array Data.t) :
  (∀ x, Some x ∈ sel → rangeable type (value (Data.d x))) →
  supported (rangeEnds sel) ∧
  ∀ first last, rangeEnds sel = Ok (first, last) →
    rangeable type (value (Data.d first)) ∧ rangeable type (value (Data.d last)).
Proof.
  intros Hsel. unfold rangeEnds, _min, _max.
  destruct (arrayExtremum_supported type sel Z.ltb None None Hsel) as [Hmin Hfirst]; [done|].
  destruct (arrayExtremum_supported type sel Z.gtb None None Hsel) as [Hmax Hlast]; [done|].
  destruct (arrayExtremum sel _ Z.ltb None None) as [first|[]]; [|done..].
  destruct (arrayExtremum sel _ Z.gtb None None) as [last|[]]; [|done..].
  simpl. destruct first as [first|], last as [last|]; simpl; try done.
  split; [done|]. intros ? ? [= <- <-]. split; [by eapply Hfirst | by eapply Hlast].
Qed.

(** The range handler coerces the values of the field as the embedding
    does: on numbers in a Number field, and on dates and ObjectIDs in the
    other fields, it completes or throws a TypeError. *)
Lemma handleRangeEvent_supported (w : World) (data : Data.t) :
  (∀ x, Some x ∈ rangeSelect (selectedValues w) data →
        rangeable (model_getType w) (value (Data.d x))) →
  (∀ el, el ∈ Data.all data → rangeable (model_getType w) (value (__data__ (dom w el)))) →
  supported (handleRangeEvent w data).
Proof.
  intros Hsel Hall. unfold handleRangeEvent.
  destruct (array_get (rangeSelect (selectedValues w) data) 0) as [s0|].
  - destruct (_each_dim (Data.all data) (dom w)) as (dom1 & -> & Hdata1 & Hdim1 & _).
    cbn [mbind result_bind].
    destruct (rangeEnds_supported _ _ Hsel) as [Hends Hty].
    apply supported_bind; [done|]. intros [first last] [Hfirst Hlast]%Hty.
    destruct (comparableBounds_rangeable _ first last Hfirst Hlast)
      as (lower & upper & -> & Hlo & Hup).
    cbn [mbind result_bind].
    destruct (_each_inRange (model_getType w) (Data.all data) dom1 lower upper _ _
                (bool_decide (dx (Data.d last) = 0)) Hlo Hup) as (dom2 & -> & _).
    { intros el Hel. rewrite Hdata1. by apply Hall. }
    { intros el Hel. by apply Hdim1. }
    cbn [mbind result_bind].
    destruct (valueBounds_rangeable _ first last Hlast) as (upper' & -> & _).
    done.
  - destruct (_each_undim (Data.all data) (dom w)) as (dom1 & -> & _). done.
Qed.

Lemma typed_rangeable (type : string) (v : Value) :
  type = "Number" ∨ type = "Date" ∨ type = "ObjectID" →
  typed type v → rangeable type v.
Proof.
  intros Htype Hv. destruct v; simpl in *; subst; try done.
  all: destruct Htype as [[=]|[[=]|[=]]].
Qed.

Lemma rangeSelect_elem (sv : Array Data.t) (data x : Data.t) :
  Some x ∈ rangeSelect sv data → x = data ∨ Some x ∈ sv.
Proof.
  unfold rangeSelect. destruct (MODIFIERKEY _).
  - destruct sv as [|s0 [|s1 sv]]; simpl; set_unfold; intuition congruence.
  - destruct (array_get sv 0); [case_bool_decide|]; set_unfold; intuition congruence.
Qed.

(** On a chart whose values are of the type of the field, the entry point
    never comes to a coercion that the embedding does not follow: whatever
    the selection, it completes or throws a TypeError. *)
Theorem handleQueryBuilderEvent_supported (w : World) (data : Data.t) :
  (∀ x, Some x ∈ selectedValues w → typed (model_getType w) (value (Data.d x))) →
  typed (model_getType w) (value (Data.d data)) →
  (∀ el, el ∈ Data.all data → typed (model_getType w) (value (__data__ (dom w el)))) →
  supported (handleQueryBuilderEvent w data).
Proof.
  intros Hsel Hdata Hall. unfold handleQueryBuilderEvent.
  apply supported_bind; [|done].
  assert (Hrange : model_getType w = "Number" ∨ model_getType w = "Date" ∨
                   model_getType w = "ObjectID" →
                   supported (handleRangeEvent w (handled data))).
  { intros Htype. apply handleRangeEvent_supported.
    - intros x [->|Hx]%rangeSelect_elem; by apply typed_rangeable; auto.
    - intros el Hel. by apply typed_rangeable; auto. }
  destruct (_ || _); [apply handleDistinctEvent_supported|].
  case_bool_decide as HNumber.
  { case_bool_decide; [apply handleDistinctEvent_supported | auto]. }
  case_bool_decide as HObjectID; [simpl; auto|].
  case_bool_decide as HDate; simpl; [auto | done].
Qed.

(** * Further properties of the handlers *)

(** ** Further properties of the range handler *)

Lemma handleRangeEvent_no_first (w : World) (data : Data.t) :
  array_get (rangeSelect (selectedValues w) data) 0 = None →
  ∃ w',
    handleRangeEvent w data = Ok w' ∧
    selectedValues w' = rangeSelect (selectedValues w) data ∧
    refineValue w' = None ∧
    model_getType w' = model_getType w ∧
    (∀ r, __data__ (dom w' r) = __data__ (dom w r)) ∧
    (∀ el, el ∈ Data.all data → shownPlain (dom w' el)) ∧
    (∀ el, el ∉ Data.all data → dom w' el = dom w el).
Proof.
  intros Hfirst.
  destruct (_each_undim (Data.all data) (dom w)) as (dom1 & Hrun1 & Hdata & Hplain & Hout).
  eexists. split.
  - unfold handleRangeEvent. rewrite Hfirst. rewrite Hrun1. reflexivity.
  - simpl. split; [done|]. split; [done|]. split; [done|]. split; [done|].
    split; [exact Hplain | exact Hout].
Qed.

Lemma rangeSelect_shape (sv : Array Data.t) (data : Data.t) :
  rangeShape sv →
  rangeShape (rangeSelect sv data) ∧
  ∀ s0, array_get (rangeSelect sv data) 0 = Some s0 →
        ∃ es, rangeSelect sv data = dense (s0 :: es).
Proof.
  unfold rangeShape, rangeSelect.
  intros [->|[[a ->]|[(a & b & ->)|[b ->]]]]; destruct (MODIFIERKEY (Data.evt data));
    simpl; try case_bool_decide; simpl.
  all: split; [naive_solver|].
  all: intros s0 [= <-] || intros s0 [=].
  all: try by exists [].
  all: try by eexists [_].
Qed.

(** One event of range mode on a selection of range mode. *)
Lemma handleRangeEvent_step (w : World) (data : Data.t) :
  rangeShape (selectedValues w) →
  (∀ x, Some x ∈ selectedValues w → rangeable (model_getType w) (value (Data.d x))) →
  rangeable (model_getType w) (value (Data.d data)) →
  (∀ el, el ∈ Data.all data → rangeable (model_getType w) (value (__data__ (dom w el)))) →
  ∃ w',
    handleRangeEvent w data = Ok w' ∧
    selectedValues w' = rangeSelect (selectedValues w) data ∧
    rangeShape (selectedValues w') ∧
    (∀ x, Some x ∈ selectedValues w' → rangeable (model_getType w') (value (Data.d x))) ∧
    model_getType w' = model_getType w ∧
    (∀ r, __data__ (dom w' r) = __data__ (dom w r)).
Proof.
  intros Hshape Hsel Hdata Hall.
  destruct (rangeSelect_shape _ data Hshape) as [Hshape' Hdense].
  assert (Hsel' : ∀ x, Some x ∈ rangeSelect (selectedValues w) data →
                       rangeable (model_getType w) (value (Data.d x))).
  { intros x [->|Hx]%rangeSelect_elem; auto. }
  destruct (array_get (rangeSelect (selectedValues w) data) 0) as [s0|] eqn:Hfirst.
  - destruct (Hdense s0 eq_refl) as [es Hes].
    destruct (handleRangeEvent_selection w data s0 es Hes)
      as (w' & _ & _ & Hrun & _ & _ & Hsv & Htype & _ & Hd & _).
    { intros x Hx. apply Hsel'. rewrite Hes. by apply list_elem_of_fmap_2. }
    { done. }
    exists w'. rewrite Hsv, Htype, <- Hes. done.
  - destruct (handleRangeEvent_no_first w data Hfirst)
      as (w' & Hrun & Hsv & _ & Htype & Hd & _).
    exists w'. rewrite Hsv, Htype. done.
Qed.


Lemma handleQueryBuilderEvent_range (w : World) (data : Data.t) :
  model_getType w ∈ ["Number"; "Date"; "ObjectID"] →
  (model_getType w = "Number" → Data.source data ≠ "unique") →
  handleQueryBuilderEvent w data = routed handleRangeEvent w data.
Proof.
  intros Htype Hsource. unfold handleQueryBuilderEvent, routed, handled.
  set_unfold. destruct Htype as [Htype|[Htype|[Htype|[]]]]; rewrite Htype in *; simpl.
  - by rewrite bool_decide_eq_false_2 by auto.
  - done.
  - done.
Qed.

Lemma rangeShape_length (sv : Array Data.t) : rangeShape sv → (length sv ≤ 2)%nat.
Proof. intros [->|[[a ->]|[(a & b & ->)|[b ->]]]]; simpl; lia. Qed.

(** X1: on a Number, Date or ObjectID field whose events do not come from
    'unique', with nothing selected at first and a chart of values of the
    field, no run of events through the entry point throws, and the
    selection it leaves is empty, one end, two ends, or a second end behind
    an empty first slot: never more than two slots. *)
Theorem entryInteractions_range (events : list Data.t) (w : World) :
  model_getType w ∈ ["Number"; "Date"; "ObjectID"] →
  selectedValues w = [] →
  Forall (λ data,
            (model_getType w = "Number" → Data.source data ≠ "unique") ∧
            rangeable (model_getType w) (value (Data.d data)) ∧
            Forall (λ el, rangeable (model_getType w) (value (__data__ (dom w el))))
              (Data.all data)) events →
  ∃ w',
    entryInteractions w events = Ok w' ∧
    rangeShape (selectedValues w') ∧
    (length (selectedValues w') ≤ 2)%nat.
Proof.
  intros Htype Hempty Hevents.
  assert (Hshape : rangeShape (selectedValues w)) by (left; done).
  assert (Hsel : ∀ x, Some x ∈ selectedValues w →
                      rangeable (model_getType w) (value (Data.d x))).
  { rewrite Hempty. intros x Hx. by apply not_elem_of_nil in Hx. }
  clear Hempty. revert w Htype Hshape Hsel Hevents.
  induction events as [|data events IH]; intros w Htype Hshape Hsel Hevents.
  - exists w. split; [done|]. split; [done | by apply rangeShape_length].
  - apply Forall_cons in Hevents as [(Hsource & Hdata & Hall) Hevents].
    rewrite Forall_forall in Hall.
    destruct (handleRangeEvent_step w (handled data) Hshape Hsel Hdata Hall)
      as (w1 & Hrun & _ & Hshape1 & Hsel1 & Htype1 & Hdata1).
    destruct (IH w1) as (w' & Hrest & Hshape' & Hlen); try done.
    { by rewrite Htype1. }
    { rewrite Htype1. eapply Forall_impl; [exact Hevents|].
      intros data' (? & ? & Hall'). split; [done|]. split; [done|].
      eapply Forall_impl; [exact Hall'|]. intros el Hel. simpl. by rewrite Hdata1. }
    exists w'. split; [|done].
    unfold entryInteractions in *. simpl.
    rewrite handleQueryBuilderEvent_range by done. unfold routed. rewrite Hrun. simpl.
    exact Hrest.
Qed.

Lemma entryInteractions_range_witness :
  ∃ w',
    entryInteractions (freshView "Number" (chartPage binned))
      [clickOn binned "many" true 1; clickOn binned "many" false 0;
       clickOn binned "many" true 3; clickOn binned "many" true 2;
       clickOn binned "many" false 0] = Ok w' ∧
    rangeShape (selectedValues w') ∧
    (length (selectedValues w') ≤ 2)%nat.
Proof.
  apply (entryInteractions_range
           [clickOn binned "many" true 1; clickOn binned "many" false 0;
            clickOn binned "many" true 3; clickOn binned "many" true 2;
            clickOn binned "many" false 0]
           (freshView "Number" (chartPage binned))).
  - repeat constructor.
  - reflexivity.
  - repeat constructor; discriminate.
Defined.


(** A click without shift that is not on the label of the first slot. *)
Lemma handleRangeEvent_click (w : World) (data : Data.t) :
  MODIFIERKEY (Data.evt data) = false →
  match array_get (selectedValues w) 0 with
  | Some s0 => label (Data.d s0) ≠ label (Data.d data)
  | None => True
  end →
  rangeable (model_getType w) (value (Data.d data)) →
  (∀ el, el ∈ Data.all data → rangeable (model_getType w) (value (__data__ (dom w el)))) →
  ∃ w' upper,
    handleRangeEvent w data = Ok w' ∧
    selectedValues w' = [Some data] ∧
    model_getType w' = model_getType w ∧
    valueBounds (model_getType w) data data = Ok (value (Data.d data), upper) ∧
    refineValue w' =
      Some (if strict_equal (value (Data.d data)) upper then LeafValue (value (Data.d data))
            else Range (value (Data.d data)) upper (bool_decide (dx (Data.d data) = 0))) ∧
    (∀ r, __data__ (dom w' r) = __data__ (dom w r)).
Proof.
  intros Hshift Hfirst Hdata Hall.
  destruct (handleRangeEvent_selection w data data [])
    as (w' & lower & upper & Hrun & _ & Hvb & Hsv & Htype & Hrefine & Hd & _); [| |done|].
  { unfold rangeSelect. rewrite Hshift.
    destruct (array_get (selectedValues w) 0); [|done].
    by rewrite bool_decide_eq_false_2. }
  { intros x ->%list_elem_of_singleton. done. }
  simpl in *.
  assert (lower = value (Data.d data)) as ->.
  { unfold valueBounds in Hvb. apply bind_Ok in Hvb as (u & _ & [= <- _]). done. }
  exists w', upper. done.
Qed.






(** The selection and the refine value that the range handler leaves are
    those of the selection after the click. *)
Lemma handleRangeEvent_refineOfRange (w w' : World) (data : Data.t) :
  handleRangeEvent w data = Ok w' →
  selectedValues w' = rangeSelect (selectedValues w) data ∧
  refineOfRange (model_getType w) (rangeSelect (selectedValues w) data)
  = Ok (refineValue w').
Proof.
  unfold handleRangeEvent, refineOfRange.
  intros (dom1 & _ & Hrest)%bind_Ok.
  destruct (array_get (rangeSelect (selectedValues w) data) 0).
  - apply bind_Ok in Hrest as ([first last] & Hends & Hrest).
    apply bind_Ok in Hrest as ([lower upper] & _ & Hrest).
    apply bind_Ok in Hrest as (dom2 & _ & Hrest).
    apply bind_Ok in Hrest as ([lower' upper'] & Hvb & [= <-]).
    rewrite Hends. simpl. rewrite Hvb. done.
  - by injection Hrest as <-.
Qed.

Lemma array_set_set {A} (i : nat) (x y : A) (a : Array A) :
  array_set i y (array_set i x a) = array_set i y a.
Proof.
  revert a. induction i as [|i IH]; intros [|z a]; simpl; try done.
  - by rewrite IH.
  - by rewrite IH.
Qed.

Lemma array_get_set_1 {A} (x : A) (a : Array A) :
  array_get (array_set 1 x a) 1 = Some x ∧ array_get (array_set 1 x a) 0 = array_get a 0.
Proof. by destruct a as [|y [|z a]]. Qed.

(** X4: in range mode a shift-click never changes the first slot of the
    selection and puts the clicked element in the second; a later
    shift-click takes the place of an earlier one: a shift-click on b and
    then on c leaves the selection and the refine value of a shift-click on
    c alone. *)
Theorem handleRangeEvent_shift_overwrites (w : World) (b c : Data.t) :
  MODIFIERKEY (Data.evt b) = true →
  MODIFIERKEY (Data.evt c) = true →
  rangeShape (selectedValues w) →
  Forall (λ x, rangeable (model_getType w) (value (Data.d x)))
    (b :: c :: omap id (selectedValues w)) →
  Forall (λ el, rangeable (model_getType w) (value (__data__ (dom w el))))
    (Data.all b ++ Data.all c) →
  ∃ w1 w2 w2',
    handleRangeEvent w b = Ok w1 ∧
    handleRangeEvent w1 c = Ok w2 ∧
    handleRangeEvent w c = Ok w2' ∧
    array_get (selectedValues w1) 0 = array_get (selectedValues w) 0 ∧
    array_get (selectedValues w1) 1 = Some b ∧
    array_get (selectedValues w2) 0 = array_get (selectedValues w) 0 ∧
    array_get (selectedValues w2) 1 = Some c ∧
    selectedValues w2 = selectedValues w2' ∧
    refineValue w2 = refineValue w2'.
Proof.
  intros Hb Hc Hshape Hty Hall.
  rewrite Forall_forall in Hty. rewrite Forall_forall in Hall.
  assert (Hsel : ∀ x, Some x ∈ selectedValues w →
                      rangeable (model_getType w) (value (Data.d x))).
  { intros x Hx. apply Hty. do 2 right. apply list_elem_of_omap. by exists (Some x). }
  destruct (handleRangeEvent_step w b) as (w1 & Hrun1 & Hsv1 & Hshape1 & Hsel1 & Htype1 & Hd1);
    [done|done|apply Hty; left| |].
  { intros el Hel. apply Hall. apply elem_of_app. by left. }
  destruct (handleRangeEvent_step w1 c) as (w2 & Hrun2 & Hsv2 & _);
    [done|done|rewrite Htype1; apply Hty; right; left| |].
  { intros el Hel. rewrite Htype1, Hd1. apply Hall. apply elem_of_app. by right. }
  destruct (handleRangeEvent_step w c) as (w2' & Hrun2' & Hsv2' & _);
    [done|done|apply Hty; right; left| |].
  { intros el Hel. apply Hall. apply elem_of_app. by right. }
  assert (Heq : rangeSelect (selectedValues w1) c = rangeSelect (selectedValues w) c).
  { rewrite Hsv1. unfold rangeSelect. rewrite Hb, Hc. apply array_set_set. }
  exists w1, w2, w2'. split; [done|]. split; [done|]. split; [done|].
  rewrite Hsv2, Heq, Hsv1. unfold rangeSelect at 1 2 3 4. rewrite Hb, Hc.
  rewrite !(proj1 (array_get_set_1 _ _)), !(proj2 (array_get_set_1 _ _)).
  split; [done|]. split; [done|]. split; [done|]. split; [done|].
  split; [by rewrite Hsv2'|].
  destruct (handleRangeEvent_refineOfRange _ _ _ Hrun2) as [_ Hr2].
  destruct (handleRangeEvent_refineOfRange _ _ _ Hrun2') as [_ Hr2'].
  rewrite Htype1, Heq, Hr2' in Hr2. by injection Hr2.
Qed.

Lemma handleRangeEvent_shift_overwrites_witness :
  ∃ w1 w2 w2',
    handleRangeEvent
      {| selectedValues := dense [clickOn binned "many" false 1];
         refineValue := None; model_getType := "Number"; dom := chartPage binned |}
      (clickOn binned "many" true 3) = Ok w1 ∧
    handleRangeEvent w1 (clickOn binned "many" true 0) = Ok w2 ∧
    handleRangeEvent
      {| selectedValues := dense [clickOn binned "many" false 1];
         refineValue := None; model_getType := "Number"; dom := chartPage binned |}
      (clickOn binned "many" true 0) = Ok w2' ∧
    array_get (selectedValues w1) 0 = Some (clickOn binned "many" false 1) ∧
    array_get (selectedValues w1) 1 = Some (clickOn binned "many" true 3) ∧
    array_get (selectedValues w2) 0 = Some (clickOn binned "many" false 1) ∧
    array_get (selectedValues w2) 1 = Some (clickOn binned "many" true 0) ∧
    selectedValues w2 = selectedValues w2' ∧
    refineValue w2 = refineValue w2'.
Proof.
  apply (handleRangeEvent_shift_overwrites
           {| selectedValues := dense [clickOn binned "many" false 1];
              refineValue := None; model_getType := "Number"; dom := chartPage binned |}
           (clickOn binned "many" true 3) (clickOn binned "many" true 0)).
  - reflexivity.
  - reflexivity.
  - right. left. by eexists.
  - repeat constructor.
  - repeat constructor.
Defined.


Lemma comparableNumber_valueNumber (d : Datum) :
  comparableNumber d = valueNumber (value d).
Proof. done. Qed.

(** X5: a range that the range handler builds is never empty or inverted:
    when the bins have no negative width, the lower bound of a Range is
    below its upper bound as the values are compared. *)
Theorem handleRangeEvent_range_ordered (w : World) (data : Data.t)
    (e : Data.t) (es : list Data.t) :
  rangeSelect (selectedValues w) data = dense (e :: es) →
  Forall (λ x, rangeable (model_getType w) (value (Data.d x)) ∧ 0 ≤ dx (Data.d x))
    (e :: es) →
  Forall (λ el, rangeable (model_getType w) (value (__data__ (dom w el))))
    (Data.all data) →
  ∃ w',
    handleRangeEvent w data = Ok w' ∧
    ∀ lower upper upperInclusive,
      refineValue w' = Some (Range lower upper upperInclusive) →
      valueNumber lower < valueNumber upper.
Proof.
  intros Hsel Hty Hall.
  rewrite Forall_forall in Hty. rewrite Forall_forall in Hall.
  assert (Hty' : ∀ x, x ∈ e :: es → rangeable (model_getType w) (value (Data.d x))).
  { intros x Hx. by apply Hty. }
  destruct (handleRangeEvent_selection w data e es Hsel Hty' Hall)
    as (w' & lower & upper & Hrun & _ & Hvb & _ & _ & Hrefine & _).
  exists w'. split; [done|]. intros lo hi inclusive Hrange.
  rewrite Hrefine in Hrange.
  destruct (strict_equal lower upper) eqn:Hstrict; [done|].
  injection Hrange as <- <- _.
  destruct (valueBounds_rangeable (model_getType w)
              (scan Z.ltb key es e) (scan Z.gtb key es e))
    as (upper' & Hvb' & HNumber & Hother); [apply Hty', scan_elem|].
  rewrite Hvb in Hvb'. injection Hvb' as -> <-.
  destruct (scan_least_greatest e es) as [[Hfirst Hleast] [Hlast Hgreatest]].
  pose proof (Hleast _ Hlast) as Hle. simpl in Hle.
  rewrite !comparableNumber_valueNumber in Hle.
  destruct (decide (model_getType w = "Number")) as [Htype|Htype].
  - destruct (HNumber Htype) as (n & Hn & ->).
    pose proof (proj2 (Hty _ Hlast)) as Hdx.
    pose proof (Hty' _ Hfirst) as Hm. rewrite Htype in Hm.
    apply rangeable_Number in Hm as [m Hm].
    rewrite Hn, Hm in *. simpl in Hstrict.
    apply bool_decide_eq_false in Hstrict.
    change (valueNumber (VNumber m)) with m in *.
    change (valueNumber (VNumber n)) with n in *.
    change (valueNumber (VNumber (n + dx (Data.d (scan Z.gtb key es e)))))
      with (n + dx (Data.d (scan Z.gtb key es e))).
    lia.
  - rewrite (Hother Htype) in *.
    destruct (decide (valueNumber (value (Data.d (scan Z.ltb key es e)))
                      = valueNumber (value (Data.d (scan Z.gtb key es e))))) as [Htie|?];
      [|lia].
    rewrite <- !comparableNumber_valueNumber in Htie.
    apply scan_ends_tie in Htie as [Hf Hl]. rewrite Hf, Hl, strict_equal_refl in Hstrict.
    done.
Qed.

Lemma handleRangeEvent_range_ordered_witness :
  ∃ w',
    handleRangeEvent
      {| selectedValues := dense [clickOn dates "date" false 2];
         refineValue := None; model_getType := "Date"; dom := chartPage dates |}
      (clickOn dates "date" true 0) = Ok w' ∧
    ∀ lower upper upperInclusive,
      refineValue w' = Some (Range lower upper upperInclusive) →
      valueNumber lower < valueNumber upper.
Proof.
  apply (handleRangeEvent_range_ordered
           {| selectedValues := dense [clickOn dates "date" false 2];
              refineValue := None; model_getType := "Date"; dom := chartPage dates |}
           (clickOn dates "date" true 0)
           (clickOn dates "date" false 2) [clickOn dates "date" true 0]).
  - reflexivity.
  - apply (bool_decide_unpack _). vm_compute. exact I.
  - repeat constructor.
Defined.





(** ** Further properties of the distinct handler *)

Lemma _each_dense_selfs (sel : list Data.t) (dom1 : Dom) :
  _each (dense sel)
    (λ (selected : option Data.t) (dom : Dom),
       deref selected ≫= λ selected,
       Ok (on_element (Data.self selected) (classList_remove "unselected")
             (on_element (Data.self selected) (classList_add "selected") dom)))
    dom1
  = _each (selfs sel)
      (λ el dom, Ok (on_element el (classList_remove "unselected")
                       (on_element el (classList_add "selected") dom)))
      dom1.
Proof. revert dom1. induction sel as [|s sel IH]; intros dom1; [done|]. simpl. apply IH. Qed.

(** The second loop of the distinct handler: the elements of the selection
    are shown selected. *)
Lemma _each_select (sel : list Data.t) (dom1 : Dom) :
  ∃ dom2,
    _each (dense sel)
      (λ (selected : option Data.t) (dom : Dom),
         deref selected ≫= λ selected,
         Ok (on_element (Data.self selected) (classList_remove "unselected")
               (on_element (Data.self selected) (classList_add "selected") dom)))
      dom1 = Ok dom2 ∧
    (∀ r, __data__ (dom2 r) = __data__ (dom1 r)) ∧
    (∀ r, r ∈ selfs sel → shownSelected (dom2 r)) ∧
    (∀ r, r ∉ selfs sel → dom2 r = dom1 r).
Proof.
  rewrite _each_dense_selfs.
  apply (_each_elements _
    (λ r e, __data__ e = __data__ (dom1 r)) (λ r e, shownSelected e)); [|done].
  intros el dom _ HK. eexists. split; [done|]. split; [|split].
  - intros r Hr. by rewrite !on_element_ne.
  - rewrite !on_element_eq. simpl. apply HK.
  - rewrite !on_element_eq. unfold shownSelected. simpl. classes.
Qed.

(** What the distinct handler shows once the click has left the selection
    [sel]. *)
Lemma handleDistinctEvent_selection_classes (w : World) (data : Data.t)
    (sel : list Data.t) :
  distinctSelect (selectedValues w) data = Ok (dense sel) →
  ∃ w',
    handleDistinctEvent w data = Ok w' ∧
    selectedValues w' = dense sel ∧
    refineValue w' = refineOf sel ∧
    (sel = [] → ∀ el, el ∈ Data.all data → shownPlain (dom w' el)) ∧
    (sel ≠ [] → ∀ el, el ∈ Data.all data → el ∉ selfs sel → shownDimmed (dom w' el)) ∧
    (∀ el, el ∈ selfs sel → shownSelected (dom w' el)) ∧
    (∀ el, el ∉ Data.all data → el ∉ selfs sel → dom w' el = dom w el).
Proof.
  intros Hsel. unfold handleDistinctEvent. rewrite Hsel. cbn [mbind result_bind].
  assert (Hloop1 : ∃ dom1,
    _each (Data.all data)
      (λ el dom,
         if bool_decide (length (dense sel) = 0%nat)
         then Ok (on_element el (classList_remove "unselected")
                    (on_element el (classList_remove "selected") dom))
         else Ok (on_element el (classList_add "unselected")
                    (on_element el (classList_remove "selected") dom)))
      (dom w) = Ok dom1 ∧
    (sel = [] → ∀ r, r ∈ Data.all data → shownPlain (dom1 r)) ∧
    (sel ≠ [] → ∀ r, r ∈ Data.all data → shownDimmed (dom1 r)) ∧
    (∀ r, r ∉ Data.all data → dom1 r = dom w r)).
  { destruct sel as [|s sel].
    - destruct (_each_undim (Data.all data) (dom w)) as (dom1 & Hrun & _ & Hplain & Hout).
      exists dom1. simpl. done.
    - destruct (_each_dim (Data.all data) (dom w)) as (dom1 & Hrun & _ & Hdim & Hout).
      exists dom1. simpl. done. }
  destruct Hloop1 as (dom1 & -> & Hplain1 & Hdim1 & Hout1). cbn [mbind result_bind].
  destruct (_each_select sel dom1) as (dom2 & -> & _ & Hsel2 & Hout2).
  cbn [mbind result_bind]. rewrite array_map_dense.
  exists {| selectedValues := dense sel; refineValue := refineOf sel;
            model_getType := model_getType w; dom := dom2 |}.
  split; [by destruct sel as [|s0 [|s1 sel]]|]. simpl.
  split; [done|]. split; [done|]. split; [|split; [|split]].
  - intros -> el Hel. rewrite Hout2; [by apply Hplain1 | apply not_elem_of_nil].
  - intros Hne el Hel Hnot. rewrite Hout2 by done. by apply Hdim1.
  - exact Hsel2.
  - intros el Hel Hnot. by rewrite Hout2, Hout1.
Qed.


(** X7: after an interaction in distinct mode the elements of the selection
    are shown selected; when something is selected every other element of
    the chart is dimmed, and when nothing is, no element of the chart is
    left selected or dimmed.  Elements that are neither in the chart nor in
    the selection keep their classes. *)
Theorem handleDistinctEvent_classes (w : World) (data : Data.t) (entries : list Data.t) :
  selectedValues w = dense entries →
  ∃ w' sel,
    handleDistinctEvent w data = Ok w' ∧
    selectedValues w' = dense sel ∧
    (sel = [] → ∀ el, el ∈ Data.all data → shownPlain (dom w' el)) ∧
    (sel ≠ [] → ∀ el, el ∈ Data.all data → el ∉ selfs sel → shownDimmed (dom w' el)) ∧
    (∀ el, el ∈ selfs sel → shownSelected (dom w' el)) ∧
    (∀ el, el ∉ Data.all data → el ∉ selfs sel → dom w' el = dom w el).
Proof.
  intros Hsel.
  destruct (handleDistinctEvent_selection_classes w data (toggle entries data))
    as (w' & Hrun & Hsv & _ & Hrest).
  { rewrite Hsel. apply distinctSelect_dense. }
  exists w', (toggle entries data). done.
Qed.

Lemma handleDistinctEvent_classes_witness :
  ∃ w' sel,
    handleDistinctEvent
      {| selectedValues := dense [clickOn letters "few" false 0];
         refineValue := None; model_getType := "String"; dom := chartPage letters |}
      (clickOn letters "few" true 1) = Ok w' ∧
    selectedValues w' = dense sel ∧
    (sel = [] → ∀ el, el ∈ Data.all (clickOn letters "few" true 1) → shownPlain (dom w' el)) ∧
    (sel ≠ [] → ∀ el, el ∈ Data.all (clickOn letters "few" true 1) → el ∉ selfs sel →
     shownDimmed (dom w' el)) ∧
    (∀ el, el ∈ selfs sel → shownSelected (dom w' el)) ∧
    (∀ el, el ∉ Data.all (clickOn letters "few" true 1) → el ∉ selfs sel →
     dom w' el = chartPage letters el).
Proof.
  apply (handleDistinctEvent_classes
           {| selectedValues := dense [clickOn letters "few" false 0];
              refineValue := None; model_getType := "String"; dom := chartPage letters |}
           (clickOn letters "few" true 1) [clickOn letters "few" false 0]).
  reflexivity.
Defined.




(** A click without shift in distinct mode. *)
Lemma distinctSelect_click (sv : Array Data.t) (data : Data.t) :
  MODIFIERKEY (Data.evt data) = false →
  sv ≠ [None] →
  ∃ sel,
    distinctSelect sv data = Ok (dense sel) ∧
    ((∃ s0, sv = [Some s0] ∧ Data.self s0 = Data.self data) → sel = []) ∧
    (¬ (∃ s0, sv = [Some s0] ∧ Data.self s0 = Data.self data) → sel = [data]).
Proof.
  intros Hshift Hhole. unfold distinctSelect. rewrite Hshift. simpl.
  destruct sv as [|[s0|] [|s1 sv]]; simpl; try done.
  - exists [data]. split; [done|]. split; [by intros (? & [=] & _) | done].
  - case_bool_decide as Hself.
    + exists []. split; [done|]. split; [done|]. intros []. eauto.
    + exists [data]. split; [done|]. split; [|done].
      by intros (? & [= <-] & ?).
  - exists [data]. split; [done|]. split; [by intros (? & [=] & _) | done].
  - exists [data]. split; [done|]. split; [by intros (? & [=] & _) | done].
Qed.

(** X9: in distinct mode a click without shift on an element that is not
    the whole selection selects it alone, with its value as the refine
    value, and a second click without shift on the same element clears:
    nothing is selected, the refine value is unset, and no element of the
    chart is left selected or dimmed. *)
Theorem handleDistinctEvent_click_twice (w : World) (data data' : Data.t) :
  MODIFIERKEY (Data.evt data) = false →
  MODIFIERKEY (Data.evt data') = false →
  Data.self data' = Data.self data →
  selectedValues w ≠ [None] →
  ¬ (∃ s0, selectedValues w = [Some s0] ∧ Data.self s0 = Data.self data) →
  ∃ w1 w2,
    handleDistinctEvent w data = Ok w1 ∧
    handleDistinctEvent w1 data' = Ok w2 ∧
    selectedValues w1 = [Some data] ∧
    refineValue w1 = Some (LeafValue (value (Data.d data))) ∧
    shownSelected (dom w1 (Data.self data)) ∧
    selectedValues w2 = [] ∧
    refineValue w2 = None ∧
    (∀ el, el ∈ Data.all data' → shownPlain (dom w2 el)).
Proof.
  intros Hshift Hshift' Hself Hhole Hother.
  destruct (distinctSelect_click _ data Hshift Hhole) as (sel & Hsel & _ & Hsel1).
  rewrite (Hsel1 Hother) in Hsel.
  destruct (handleDistinctEvent_selection_classes w data [data] Hsel)
    as (w1 & Hrun1 & Hsv1 & Hrefine1 & _ & _ & Hshown1 & _).
  destruct (distinctSelect_click (selectedValues w1) data' Hshift')
    as (sel' & Hsel' & Hsel2 & _); [by rewrite Hsv1|].
  rewrite Hsel2 in Hsel' by (rewrite Hsv1; eauto).
  destruct (handleDistinctEvent_selection_classes w1 data' [] Hsel')
    as (w2 & Hrun2 & Hsv2 & Hrefine2 & Hplain2 & _).
  exists w1, w2. split; [done|]. split; [done|]. split; [done|]. split; [done|].
  split; [apply Hshown1; simpl; set_solver|]. split; [done|]. split; [done|].
  by apply Hplain2.
Qed.

Lemma handleDistinctEvent_click_twice_witness :
  ∃ w1 w2,
    handleDistinctEvent (freshView "String" (chartPage letters))
      (clickOn letters "few" false 1) = Ok w1 ∧
    handleDistinctEvent w1 (clickOn letters "few" false 1) = Ok w2 ∧
    selectedValues w1 = [Some (clickOn letters "few" false 1)] ∧
    refineValue w1 = Some (LeafValue (value (Data.d (clickOn letters "few" false 1)))) ∧
    shownSelected (dom w1 (Data.self (clickOn letters "few" false 1))) ∧
    selectedValues w2 = [] ∧
    refineValue w2 = None ∧
    (∀ el, el ∈ Data.all (clickOn letters "few" false 1) → shownPlain (dom w2 el)).
Proof.
  apply (handleDistinctEvent_click_twice (freshView "String" (chartPage letters))
           (clickOn letters "few" false 1) (clickOn letters "few" false 1)).
  - reflexivity.
  - reflexivity.
  - reflexivity.
  - discriminate.
  - intros (s0 & Hnil & _). discriminate Hnil.
Defined.


(** ** A selection with an empty slot in distinct mode *)

Lemma _remove_hole (array : Array Data.t) (l : string) :
  None ∈ array →
  _remove array (λ d, d ← deref d; Ok (bool_decide (label (Data.d d) = l)))
  = Throw TypeError.
Proof.
  induction array as [|[x|] array IH]; intros Hhole.
  - by apply not_elem_of_nil in Hhole.
  - apply elem_of_cons in Hhole as [[=]|Hhole]. simpl. by rewrite IH.
  - done.
Qed.

Lemma _each_hole (array : Array Data.t) (dom1 : Dom) :
  None ∈ array →
  _each array
    (λ (selected : option Data.t) (dom : Dom),
       deref selected ≫= λ selected,
       Ok (on_element (Data.self selected) (classList_remove "unselected")
             (on_element (Data.self selected) (classList_add "selected") dom)))
    dom1 = Throw TypeError.
Proof.
  revert dom1. induction array as [|[x|] array IH]; intros dom1 Hhole.
  - by apply not_elem_of_nil in Hhole.
  - apply elem_of_cons in Hhole as [[=]|Hhole]. simpl. by apply IH.
  - done.
Qed.

Lemma handleDistinctEvent_hole (w : World) (data : Data.t) :
  None ∈ selectedValues w →
  MODIFIERKEY (Data.evt data) = true →
  handleDistinctEvent w data = Throw TypeError.
Proof.
  intros Hhole Hshift. unfold handleDistinctEvent, distinctSelect. rewrite Hshift. simpl.
  destruct (_contains _ _).
  - by rewrite _remove_hole.
  - simpl.
    destruct (_each_invariant
      (λ el dom,
         if bool_decide (length (array_push (selectedValues w) data) = 0%nat)
         then Ok (on_element el (classList_remove "unselected")
                    (on_element el (classList_remove "selected") dom))
         else Ok (on_element el (classList_add "unselected")
                    (on_element el (classList_remove "selected") dom)))
      (λ _, True) (Data.all data) (dom w)) as (dom1 & -> & _); [|done|].
    { intros el dom _ _. case_bool_decide; eauto. }
    simpl. rewrite _each_hole; [done|].
    unfold array_push. apply elem_of_app. by left.
Qed.

Lemma handled_shift (data : Data.t) :
  MODIFIERKEY (Data.evt (handled data)) = MODIFIERKEY (Data.evt data).
Proof. done. Qed.

(** X10: with an empty slot in the selection, every shift-click in distinct
    mode throws a TypeError.  The entry point gets there on a Number field:
    with nothing selected, a shift-click that does not come from 'unique'
    completes and leaves the clicked element behind an empty first slot,
    and the next shift-click that comes from 'unique' throws. *)
Theorem shift_click_on_hole_throws :
  (∀ (w : World) (data : Data.t),
     None ∈ selectedValues w →
     MODIFIERKEY (Data.evt data) = true →
     handleDistinctEvent w data = Throw TypeError) ∧
  (∀ (w : World) (data1 data2 : Data.t),
     model_getType w = "Number" →
     selectedValues w = [] →
     MODIFIERKEY (Data.evt data1) = true →
     Data.source data1 ≠ "unique" →
     MODIFIERKEY (Data.evt data2) = true →
     Data.source data2 = "unique" →
     ∃ w1 evt1,
       handleQueryBuilderEvent w data1 = Ok (w1, evt1) ∧
       selectedValues w1 = [None; Some (handled data1)] ∧
       handleQueryBuilderEvent w1 data2 = Throw TypeError).
Proof.
  split; [exact handleDistinctEvent_hole|].
  intros w data1 data2 Htype Hempty Hshift1 Hsource1 Hshift2 Hsource2.
  destruct (handleRangeEvent_no_first w (handled data1))
    as (w1 & Hrun1 & Hsv1 & _ & Htype1 & _).
  { unfold rangeSelect. by rewrite handled_shift, Hshift1, Hempty. }
  assert (Hsel1 : selectedValues w1 = [None; Some (handled data1)]).
  { rewrite Hsv1. unfold rangeSelect. by rewrite handled_shift, Hshift1, Hempty. }
  exists w1, (Data.evt (handled data1)). split; [|split; [done|]].
  - rewrite handleQueryBuilderEvent_range; [|rewrite Htype; set_solver|done].
    unfold routed. by rewrite Hrun1.
  - unfold handleQueryBuilderEvent. rewrite Htype1, Htype. simpl.
    rewrite Hsource2. simpl.
    rewrite handleDistinctEvent_hole; [done| |exact Hshift2].
    rewrite Hsel1. left.
Qed.

Lemma shift_click_on_hole_throws_witness :
  handleDistinctEvent
    {| selectedValues := [None; Some (clickOn unbinned "few" true 0)];
       refineValue := None; model_getType := "Number"; dom := chartPage unbinned |}
    (clickOn unbinned "unique" true 1) = Throw TypeError ∧
  ∃ w1 evt1,
    handleQueryBuilderEvent (freshView "Number" (chartPage unbinned))
      (clickOn unbinned "few" true 0) = Ok (w1, evt1) ∧
    selectedValues w1 = [None; Some (handled (clickOn unbinned "few" true 0))] ∧
    handleQueryBuilderEvent w1 (clickOn unbinned "unique" true 1) = Throw TypeError.
Proof.
  split.
  - apply (proj1 shift_click_on_hole_throws
             {| selectedValues := [None; Some (clickOn unbinned "few" true 0)];
                refineValue := None; model_getType := "Number";
                dom := chartPage unbinned |}
             (clickOn unbinned "unique" true 1)).
    + left.
    + reflexivity.
  - apply (proj2 shift_click_on_hole_throws (freshView "Number" (chartPage unbinned))
             (clickOn unbinned "few" true 0) (clickOn unbinned "unique" true 1)).
    + reflexivity.
    + reflexivity.
    + reflexivity.
    + discriminate.
    + reflexivity.
    + reflexivity.
Defined.


(** ** What the handlers leave alone *)

Lemma sameButSelection_refl (e : Element) : sameButSelection e e.
Proof. by split. Qed.

Lemma sameButSelection_trans (e1 e2 e3 : Element) :
  sameButSelection e1 e2 → sameButSelection e2 e3 → sameButSelection e1 e3.
Proof.
  intros [Hd1 Hc1] [Hd2 Hc2]. split; [congruence|].
  intros c Hs Hu. by rewrite Hc2, Hc1.
Qed.

Lemma sameButSelection_add (c : string) (e : Element) :
  c = "selected" ∨ c = "unselected" → sameButSelection e (classList_add c e).
Proof. intros Hc. split; [done|]. intros c' Hs Hu. simpl. classes. Qed.

Lemma sameButSelection_remove (c : string) (e : Element) :
  c = "selected" ∨ c = "unselected" → sameButSelection e (classList_remove c e).
Proof. intros Hc. split; [done|]. intros c' Hs Hu. simpl. classes. Qed.

Lemma sameButSelection_on_element (el : DomRef) (g : Element → Element) (dom : Dom) :
  (∀ e, sameButSelection e (g e)) →
  ∀ r, sameButSelection (dom r) (on_element el g dom r).
Proof.
  intros Hg r. unfold on_element. destruct (decide (r = el)); [apply Hg|].
  apply sameButSelection_refl.
Qed.

(** Adding and removing the two classes, in any order, on any elements. *)
Lemma sameButSelection_twice (el el' : DomRef) (g g' : Element → Element) (dom : Dom) :
  (∀ e, sameButSelection e (g e)) → (∀ e, sameButSelection e (g' e)) →
  ∀ r, sameButSelection (dom r) (on_element el' g' (on_element el g dom) r).
Proof.
  intros Hg Hg' r. eapply sameButSelection_trans.
  - apply (sameButSelection_on_element el g dom Hg r).
  - apply (sameButSelection_on_element el' g' (on_element el g dom) Hg' r).
Qed.

Lemma _each_frame {A} (f : A → Dom → result Dom) (l : list A) (dom0 dom' : Dom) :
  (∀ x dom dom1, f x dom = Ok dom1 → ∀ r, sameButSelection (dom r) (dom1 r)) →
  _each l f dom0 = Ok dom' →
  ∀ r, sameButSelection (dom0 r) (dom' r).
Proof.
  intros Hf. revert dom0. induction l as [|x l IH]; intros dom0 Hrun r; simpl in Hrun.
  - injection Hrun as <-. apply sameButSelection_refl.
  - apply bind_Ok in Hrun as (dom1 & Hx & Hrun).
    eapply sameButSelection_trans; [by eapply Hf | by apply IH].
Qed.

Ltac selection_classes :=
  apply sameButSelection_twice; intros;
  (apply sameButSelection_add || apply sameButSelection_remove); auto.

Lemma handleDistinctEvent_frame (w w' : World) (data : Data.t) :
  handleDistinctEvent w data = Ok w' →
  model_getType w' = model_getType w ∧ ∀ r, sameButSelection (dom w r) (dom w' r).
Proof.
  unfold handleDistinctEvent.
  intros (sel & _ & Hrest)%bind_Ok.
  apply bind_Ok in Hrest as (dom1 & Hloop1 & Hrest).
  apply bind_Ok in Hrest as (dom2 & Hloop2 & Hrest).
  apply bind_Ok in Hrest as (refine & _ & [= <-]). simpl.
  split; [done|]. intros r. eapply sameButSelection_trans.
  - eapply _each_frame; [|exact Hloop1].
    intros el dom dom' Hstep. case_bool_decide; injection Hstep as <-; selection_classes.
  - eapply _each_frame; [|exact Hloop2].
    intros [s|] dom dom' Hstep; [|done]. injection Hstep as <-. selection_classes.
Qed.

Lemma handleRangeEvent_frame (w w' : World) (data : Data.t) :
  handleRangeEvent w data = Ok w' →
  model_getType w' = model_getType w ∧ ∀ r, sameButSelection (dom w r) (dom w' r).
Proof.
  unfold handleRangeEvent.
  intros (dom1 & Hloop1 & Hrest)%bind_Ok.
  assert (Hframe1 : ∀ r, sameButSelection (dom w r) (dom1 r)).
  { eapply _each_frame; [|exact Hloop1].
    intros el dom dom' Hstep.
    destruct (array_get _ 0); injection Hstep as <-; selection_classes. }
  destruct (array_get (rangeSelect (selectedValues w) data) 0).
  - apply bind_Ok in Hrest as ([first last] & _ & Hrest).
    apply bind_Ok in Hrest as ([lower upper] & _ & Hrest).
    apply bind_Ok in Hrest as (dom2 & Hloop2 & Hrest).
    apply bind_Ok in Hrest as ([lower' upper'] & _ & [= <-]). simpl.
    split; [done|]. intros r. eapply sameButSelection_trans; [apply Hframe1|].
    eapply _each_frame; [|exact Hloop2].
    intros el dom dom' Hstep.
    apply bind_Ok in Hstep as (ge & _ & Hstep).
    apply bind_Ok in Hstep as ([] & _ & Hstep); injection Hstep as <-.
    + selection_classes.
    + intros r'. apply sameButSelection_refl.
  - injection Hrest as <-. done.
Qed.

(** X11: whatever the type of the field and the selection, when the entry
    point completes it has changed no datum of an element and no class of
    an element other than selected and unselected, and the type of the
    field is as before. *)
Theorem handleQueryBuilderEvent_frame (w w' : World) (data : Data.t) (evt' : Evt) :
  handleQueryBuilderEvent w data = Ok (w', evt') →
  model_getType w' = model_getType w ∧
  ∀ r, __data__ (dom w' r) = __data__ (dom w r) ∧
       ∀ c, c ≠ "selected" → c ≠ "unselected" →
            (c ∈ classList (dom w' r) ↔ c ∈ classList (dom w r)).
Proof.
  unfold handleQueryBuilderEvent. intros (w1 & Hrun & [= <- _])%bind_Ok.
  assert (model_getType w1 = model_getType w ∧
          ∀ r, sameButSelection (dom w r) (dom w1 r)) as [Htype Hframe]; [|by split].
  destruct (_ || _); [by eapply handleDistinctEvent_frame|].
  destruct (bool_decide (model_getType w = "Number")).
  { destruct (bool_decide _); [by eapply handleDistinctEvent_frame|].
    by eapply handleRangeEvent_frame. }
  destruct (_ || _); [by eapply handleRangeEvent_frame|].
  injection Hrun as <-. split; [done|]. intros r. apply sameButSelection_refl.
Qed.

Lemma handleQueryBuilderEvent_frame_witness :
  ∃ w' evt',
    handleQueryBuilderEvent (freshView "Number" styledPage) (clickOn binned "many" false 1)
    = Ok (w', evt') ∧
    model_getType w' = "Number" ∧
    ∀ r, __data__ (dom w' r) = __data__ (styledPage r) ∧
         ∀ c, c ≠ "selected" → c ≠ "unselected" →
              (c ∈ classList (dom w' r) ↔ c ∈ classList (styledPage r)).
Proof.
  destruct (handleRangeEvent_click (freshView "Number" styledPage)
              (handled (clickOn binned "many" false 1)))
    as (w' & upper & Hrun & _); [reflexivity | exact I | reflexivity | |].
  { intros el Hel. simpl in Hel.
    repeat (apply elem_of_cons in Hel as [->|Hel]; [reflexivity|]).
    by apply not_elem_of_nil in Hel. }
  assert (Hentry : handleQueryBuilderEvent (freshView "Number" styledPage)
                     (clickOn binned "many" false 1)
                   = Ok (w', Data.evt (handled (clickOn binned "many" false 1)))).
  { rewrite handleQueryBuilderEvent_range; [|repeat constructor|discriminate].
    unfold routed. by rewrite Hrun. }
  exists w', (Data.evt (handled (clickOn binned "many" false 1))).
  split; [exact Hentry|].
  exact (handleQueryBuilderEvent_frame _ _ _ _ Hentry).
Defined.


(** ** The entry point in distinct mode *)

Lemma handleQueryBuilderEvent_distinct (w : World) (data : Data.t) :
  model_getType w ∈ ["Boolean"; "String"] ∨
  (model_getType w = "Number" ∧ Data.source data = "unique") →
  handleQueryBuilderEvent w data = routed handleDistinctEvent w data.
Proof.
  unfold handleQueryBuilderEvent, routed, handled. set_unfold.
  intros [[Htype|[Htype|[]]]|[Htype Hsource]]; rewrite Htype; simpl; [done..|].
  by rewrite bool_decide_eq_true_2 by done.
Qed.

Lemma entryInteractions_distinct_run (events : list Data.t) (w : World)
    (entries : list Data.t) :
  model_getType w ∈ ["Boolean"; "String"] ∨
  (model_getType w = "Number" ∧ Forall (λ data, Data.source data = "unique") events) →
  selectedValues w = dense entries →
  NoDup (labels entries) →
  refineValue w = refineOf entries →
  ∃ w' entries',
    entryInteractions w events = Ok w' ∧
    selectedValues w' = dense entries' ∧
    NoDup (labels entries') ∧
    refineValue w' = refineOf entries'.
Proof.
  revert w entries.
  induction events as [|data events IH]; intros w entries Htype Hsel Hdup Hrefine.
  - by exists w, entries.
  - destruct (handleDistinctEvent_dense w (handled data) entries Hsel)
      as (w1 & Hrun & Hsel1 & Htype1 & Hrefine1).
    destruct (IH w1 (toggle entries (handled data))) as (w' & entries' & Hrest & Hrest');
      [|done|by apply toggle_NoDup|done|].
    { rewrite Htype1. destruct Htype as [?|[? [_ ?]%Forall_cons]]; auto. }
    exists w', entries'. split; [|done].
    unfold entryInteractions in *. simpl.
    rewrite handleQueryBuilderEvent_distinct.
    + unfold routed. rewrite Hrun. simpl. exact Hrest.
    + destruct Htype as [?|[? [? _]%Forall_cons]]; auto.
Qed.

(** X12: on a Boolean or String field, and on a Number field whose events
    all come from 'unique', from a selection without an empty slot and
    without a repeated label no run of events through the entry point
    throws; the selection it leaves has no empty slot and no repeated label,
    and after at least one event the refine value is the one of this
    selection: unset for none, the value for one, the list of the values
    for more. *)
Theorem entryInteractions_distinct (events : list Data.t) (w : World)
    (entries : list Data.t) :
  model_getType w ∈ ["Boolean"; "String"] ∨
  (model_getType w = "Number" ∧ Forall (λ data, Data.source data = "unique") events) →
  selectedValues w = dense entries →
  NoDup (labels entries) →
  ∃ w' entries',
    entryInteractions w events = Ok w' ∧
    selectedValues w' = dense entries' ∧
    NoDup (labels entries') ∧
    (events ≠ [] → refineValue w' = refineOf entries').
Proof.
  intros Htype Hsel Hdup. destruct events as [|data events].
  - by exists w, entries.
  - destruct (handleDistinctEvent_dense w (handled data) entries Hsel)
      as (w1 & Hrun & Hsel1 & Htype1 & Hrefine1).
    destruct (entryInteractions_distinct_run events w1 (toggle entries (handled data)))
      as (w' & entries' & Hrest & Hsel' & Hdup' & Hrefine');
      [|done|by apply toggle_NoDup|done|].
    { rewrite Htype1. destruct Htype as [?|[? [_ ?]%Forall_cons]]; auto. }
    exists w', entries'. split; [|done].
    unfold entryInteractions in *. simpl.
    rewrite handleQueryBuilderEvent_distinct.
    + unfold routed. rewrite Hrun. simpl. exact Hrest.
    + destruct Htype as [?|[? [? _]%Forall_cons]]; auto.
Qed.

Lemma entryInteractions_distinct_witness :
  ∃ w' entries',
    entryInteractions (freshView "Number" (chartPage unbinned))
      [clickOn unbinned "unique" true 0; clickOn unbinned "unique" true 1;
       clickOn unbinned "unique" true 0; clickOn unbinned "unique" false 1] = Ok w' ∧
    selectedValues w' = dense entries' ∧
    NoDup (labels entries') ∧
    ([clickOn unbinned "unique" true 0; clickOn unbinned "unique" true 1;
      clickOn unbinned "unique" true 0; clickOn unbinned "unique" false 1] ≠ [] →
     refineValue w' = refineOf entries').
Proof.
  apply (entryInteractions_distinct
           [clickOn unbinned "unique" true 0; clickOn unbinned "unique" true 1;
            clickOn unbinned "unique" true 0; clickOn unbinned "unique" false 1]
           (freshView "Number" (chartPage unbinned)) []).
  - right. split; [reflexivity | repeat constructor].
  - reflexivity.
  - apply NoDup_nil_2.
Defined.

(** * Properties of the actions of a document *)

Lemma DocumentActions_receiveProps_state (this : DocumentActions.t)
    (nextProps : DocumentActions.Props.t) :
  DocumentActions.State.allExpanded
    (DocumentActions.state (DocumentActions.receiveProps this nextProps))
  = DocumentActions.Props.allExpanded nextProps.
Proof.
  unfold DocumentActions.receiveProps, DocumentActions.componentWillReceiveProps. simpl.
  case_bool_decide as Heq; simpl; [by rewrite Heq | done].
Qed.

Lemma last_receiveProps {A} (l : list A) (a d : A) :
  List.last l a = List.last (a :: l) d.
Proof.
  destruct l as [|b l]; [done|]. revert b. induction l as [|c l IH]; intros b; [done|].
  change (List.last (c :: l) a = List.last (a :: c :: l) d). by rewrite (IH c).
Qed.

Lemma DocumentActions_lifecycle_sync (updates : list DocumentActions.Props.t)
    (this : DocumentActions.t) :
  DocumentActions.State.allExpanded (DocumentActions.state this)
  = DocumentActions.Props.allExpanded (DocumentActions.props this) →
  let this' := foldl DocumentActions.receiveProps this updates in
  DocumentActions.State.allExpanded (DocumentActions.state this')
  = DocumentActions.Props.allExpanded (DocumentActions.props this') ∧
  DocumentActions.props this' = List.last updates (DocumentActions.props this).
Proof.
  revert this. induction updates as [|p updates IH]; intros this Hsync.
  { by split. }
  destruct (IH (DocumentActions.receiveProps this p)) as [Hstate Hprops].
  { apply DocumentActions_receiveProps_state. }
  cbn [foldl]. split; [exact Hstate|]. rewrite Hprops. apply last_receiveProps.
Qed.

(** X13: however many times the component has received new props, its state
    says allExpanded exactly when the props it has now do, and these are
    the last ones it has received; [setState] is then called on new props
    exactly when their allExpanded is not that of the props it has. *)
Theorem DocumentActions_state_follows_props (props0 : DocumentActions.Props.t)
    (updates : list DocumentActions.Props.t) :
  let this := DocumentActions.lifecycle props0 updates in
  DocumentActions.props this = List.last updates props0 ∧
  DocumentActions.State.allExpanded (DocumentActions.state this)
  = DocumentActions.Props.allExpanded (List.last updates props0) ∧
  ∀ nextProps,
    DocumentActions.componentWillReceiveProps this nextProps = None ↔
    DocumentActions.Props.allExpanded nextProps
    = DocumentActions.Props.allExpanded (List.last updates props0).
Proof.
  destruct (DocumentActions_lifecycle_sync updates (DocumentActions.constructor props0))
    as [Hstate Hprops]; [done|].
  simpl in *. unfold DocumentActions.lifecycle.
  split; [done|]. rewrite Hprops in Hstate. split; [done|].
  intros nextProps. unfold DocumentActions.componentWillReceiveProps. rewrite Hstate.
  case_bool_decide; simpl; split; done.
Qed.

(** X14: what the component renders after any updates is what a component
    just made with the last props renders: the expand all button says
    Collapse All with a caret down when these props say allExpanded and
    Expand All with a caret right when they do not, and the four buttons
    call expandAll, edit, remove and clone of these props, in this order. *)
Theorem DocumentActions_render_last_props (props0 : DocumentActions.Props.t)
    (updates : list DocumentActions.Props.t) :
  let this := DocumentActions.lifecycle props0 updates in
  let last := List.last updates props0 in
  DocumentActions.render this
  = DocumentActions.render (DocumentActions.constructor last) ∧
  prop "title" (DocumentActions.renderExpandAll this)
  = Some (PString (if DocumentActions.Props.allExpanded last
                   then "Collapse All" else "Expand All")) ∧
  prop "iconClassName" (DocumentActions.renderExpandAll this)
  = Some (PString (if DocumentActions.Props.allExpanded last
                   then "document-actions-button-icon fa fa-caret-down"
                   else "document-actions-button-icon fa fa-caret-right")) ∧
  prop "dataTestId" <$> children (DocumentActions.render this)
  = [Some (PString "expand-all-button"); Some (PString "edit-document-button");
     Some (PString "delete-document-button"); Some (PString "clone-document-button")] ∧
  prop "clickHandler" <$> children (DocumentActions.render this)
  = [Some (PFunc (DocumentActions.Props.expandAll last));
     Some (PFunc (DocumentActions.Props.edit last));
     Some (PFunc (DocumentActions.Props.remove last));
     Some (PFunc (DocumentActions.Props.clone last))].
Proof.
  destruct (DocumentActions_lifecycle_sync updates (DocumentActions.constructor props0))
    as [Hstate Hprops]; [done|].
  simpl in *. unfold DocumentActions.lifecycle.
  set (this := foldl DocumentActions.receiveProps (DocumentActions.constructor props0)
                 updates) in *.
  rewrite Hprops in Hstate.
  unfold DocumentActions.render, DocumentActions.renderExpandAll.
  rewrite Hstate, Hprops. simpl.
  split; [done|]. by destruct (DocumentActions.Props.allExpanded _).
Qed.
